(** * keephy_organizations: organizations, brands, businesses, franchises

    A shallow embedding of the service: the four Mongoose schemas
    (Organization and Brand in src/unnamed/part_000, Business in
    src/src/models/Business.js, Franchise in src/src/models/Franchise.js),
    their instance methods, and the Express application that follows the
    Franchise model in src/src/models/Franchise.js, over an in-memory
    document store. Mongoose and MongoDB are modelled by what their
    operations are documented to do, as far as the service uses them.

    Modelling boundaries, stated once:
    - JSON values are the data. An ObjectId is the string that denotes it
      and a Date is its number of milliseconds, so a cast leaves a value of
      the declared type as it is; Mongoose's coercions between scalar types
      are not represented (a value of another type is a cast error).
    - The store is always reachable; the only exceptions a query raises
      are the ones written out below (validation, duplicate key).
    - Identifiers in a path are well-formed ObjectIds.
    - [limit] and [offset] are the naturals [parseInt] yields on decimal
      query strings.
    - A request body holds field names; MongoDB update operators (keys
      that start with a dollar sign) are not interpreted.
    - The version key and the [id] alias that Mongoose adds to every
      document are left out, and a stored document is returned as stored.
    - The collections of the models other services own (User, Staff,
      Form) are part of the store. *)

From stdpp Require Import gmap strings list fin_maps sorting.
From Stdlib Require Import ZArith Ascii.

#[local] Set Warnings "-register-all".

(** ** JSON values *)

Inductive value : Type :=
| VNull
| VBool (b : bool)
| VNum (n : Z)
| VStr (s : string)
| VArr (l : list value)
| VObj (m : gmap string value).

Abbreviation doc := (gmap string value).

(** [v.k]: a property read; [undefined] is [None]. *)
Definition prop (k : string) (v : value) : option value :=
  match v with
  | VObj m => m !! k
  | _ => None
  end.

(** [v.k1.k2...] *)
Fixpoint get (p : list string) (v : value) : option value :=
  match p with
  | [] => Some v
  | k :: p' => match prop k v with
               | Some v' => get p' v'
               | None => None
               end
  end.

Definition fields_of (v : value) : doc :=
  match v with
  | VObj m => m
  | _ => ∅
  end.

(** Equality of the scalars that occur as filter operands
    (identifiers and flags). *)
Definition scalar_eqb (a b : value) : bool :=
  match a, b with
  | VNull, VNull => true
  | VBool x, VBool y => bool_decide (x = y)
  | VNum x, VNum y => bool_decide (x = y)
  | VStr x, VStr y => bool_decide (x = y)
  | _, _ => false
  end.

(** ** Strings: the setters [trim] and [lowercase] *)

Fixpoint ltrim (s : string) : string :=
  match s with
  | String c s' => if Ascii.is_space c then ltrim s' else s
  | EmptyString => EmptyString
  end.

Definition trim (s : string) : string :=
  String.rev (ltrim (String.rev (ltrim s))).

Definition lower_ascii (c : ascii) : ascii :=
  let n := Ascii.nat_of_ascii c in
  if bool_decide (65 ≤ n ≤ 90)%nat then Ascii.ascii_of_nat (n + 32) else c.

Fixpoint toLowerCase (s : string) : string :=
  match s with
  | String c s' => String (lower_ascii c) (toLowerCase s')
  | EmptyString => EmptyString
  end.

(** [s.substring(0, n)] *)
Fixpoint substring0 (n : nat) (s : string) : string :=
  match n, s with
  | S n', String c s' => String c (substring0 n' s')
  | _, _ => EmptyString
  end.

(** ** Schemas *)

Inductive stype := TString | TNumber | TBoolean | TDate | TObjectId | TArray (elt : stype).

Inductive defaultOpt := NoDefault | Default (v : value) | DateNow.

(** The options of one schema path, as written in the schema literal. *)
Record options := {
  required : bool;
  dflt : defaultOpt;
  enum : option (list string);
  maxlength : option nat;
  o_trim : bool;
  o_lowercase : bool;
  unique : bool;
  ref : option string
}.

Inductive schema :=
| Path (t : stype) (o : options)
| Nested (children : list (string * schema)).

Definition plain : options :=
  {| required := false; dflt := NoDefault; enum := None; maxlength := None;
     o_trim := false; o_lowercase := false; unique := false; ref := None |}.

Definition req (o : options) : options :=
  {| required := true; dflt := dflt o; enum := enum o; maxlength := maxlength o;
     o_trim := o_trim o; o_lowercase := o_lowercase o; unique := unique o; ref := ref o |}.
Definition dft (v : value) (o : options) : options :=
  {| required := required o; dflt := Default v; enum := enum o; maxlength := maxlength o;
     o_trim := o_trim o; o_lowercase := o_lowercase o; unique := unique o; ref := ref o |}.
Definition dft_now (o : options) : options :=
  {| required := required o; dflt := DateNow; enum := enum o; maxlength := maxlength o;
     o_trim := o_trim o; o_lowercase := o_lowercase o; unique := unique o; ref := ref o |}.
Definition one_of (l : list string) (o : options) : options :=
  {| required := required o; dflt := dflt o; enum := Some l; maxlength := maxlength o;
     o_trim := o_trim o; o_lowercase := o_lowercase o; unique := unique o; ref := ref o |}.
Definition maxlen (n : nat) (o : options) : options :=
  {| required := required o; dflt := dflt o; enum := enum o; maxlength := Some n;
     o_trim := o_trim o; o_lowercase := o_lowercase o; unique := unique o; ref := ref o |}.
Definition trimmed (o : options) : options :=
  {| required := required o; dflt := dflt o; enum := enum o; maxlength := maxlength o;
     o_trim := true; o_lowercase := o_lowercase o; unique := unique o; ref := ref o |}.
Definition lowered (o : options) : options :=
  {| required := required o; dflt := dflt o; enum := enum o; maxlength := maxlength o;
     o_trim := o_trim o; o_lowercase := true; unique := unique o; ref := ref o |}.
Definition uniq (o : options) : options :=
  {| required := required o; dflt := dflt o; enum := enum o; maxlength := maxlength o;
     o_trim := o_trim o; o_lowercase := o_lowercase o; unique := true; ref := ref o |}.
Definition refers (m : string) (o : options) : options :=
  {| required := required o; dflt := dflt o; enum := enum o; maxlength := maxlength o;
     o_trim := o_trim o; o_lowercase := o_lowercase o; unique := unique o; ref := Some m |}.

(** [k: String], [k: Date]: a path with no option. *)
Definition str : schema := Path TString plain.
Definition flag (b : bool) : schema := Path TBoolean (dft (VBool b) plain).
Definition num (n : Z) : schema := Path TNumber (dft (VNum n) plain).
Definition strd (s : string) : schema := Path TString (dft (VStr s) plain).

Definition postal : schema :=
  Nested [("street", str); ("city", str); ("state", str);
          ("country", str); ("zipCode", str)].

Definition isActive_createdAt_updatedAt : list (string * schema) :=
  [("isActive", flag true);
   ("createdAt", Path TDate (dft_now plain));
   ("updatedAt", Path TDate (dft_now plain))].

Definition plans : list string := ["basic"; "professional"; "enterprise"].
Definition statuses : list string := ["active"; "suspended"; "cancelled"; "trial"].

(** models/Organization.js *)
Definition organizationSchema : schema := Nested ([
  ("name", Path TString (req (trimmed (maxlen 100 plain))));
  ("description", Path TString (maxlen 500 plain));
  ("domain", Path TString (uniq (lowered (trimmed plain))));
  ("logo", Path TString (dft VNull plain));
  ("settings", Nested [
     ("timezone", strd "UTC"); ("currency", strd "USD"); ("language", strd "en");
     ("features", Nested [
        ("multiBrand", flag false); ("whiteLabel", flag false);
        ("customDomain", flag false)])]);
  ("contact", Nested [
     ("email", Path TString (req plain)); ("phone", str); ("address", postal)]);
  ("subscription", Nested [
     ("plan", Path TString (one_of plans (dft (VStr "basic") plain)));
     ("status", Path TString (one_of statuses (dft (VStr "trial") plain)));
     ("trialEndsAt", Path TDate plain);
     ("billingCycle",
      Path TString (one_of ["monthly"; "yearly"] (dft (VStr "monthly") plain)))]);
  ("limits", Nested [
     ("brands", num 1); ("businesses", num 5); ("users", num 10);
     ("storage", num 1024)])]
  ++ isActive_createdAt_updatedAt).

(** models/Brand.js *)
Definition brandSchema : schema := Nested ([
  ("name", Path TString (req (trimmed (maxlen 100 plain))));
  ("description", Path TString (maxlen 500 plain));
  ("organizationId", Path TObjectId (refers "Organization" (req plain)));
  ("logo", Path TString (dft VNull plain));
  ("brandGuidelines", Nested [
     ("primaryColor", str); ("secondaryColor", str); ("fontFamily", str);
     ("logoVariations", Path (TArray TString) plain)]);
  ("settings", Nested [
     ("theme", strd "default"); ("customDomain", str);
     ("features", Nested [
        ("customForms", flag false); ("customReports", flag false);
        ("whiteLabel", flag false)])]);
  ("contact", Nested [("email", str); ("phone", str); ("address", postal)]);
  ("limits", Nested [("businesses", num 10); ("users", num 50); ("forms", num 100)])]
  ++ isActive_createdAt_updatedAt).

Definition industries : list string :=
  ["restaurant"; "hotel"; "retail"; "healthcare"; "education";
   "fitness"; "beauty"; "automotive"; "real_estate"; "other"].

(** models/Business.js *)
Definition businessSchema : schema := Nested ([
  ("name", Path TString (req (trimmed (maxlen 100 plain))));
  ("description", Path TString (maxlen 500 plain));
  ("organizationId", Path TObjectId (refers "Organization" (req plain)));
  ("brandId", Path TObjectId (refers "Brand" (dft VNull plain)));
  ("ownerId", Path TObjectId (refers "User" (req plain)));
  ("industry", Path TString (req (one_of industries plain)));
  ("businessType",
   Path TString (one_of ["single_location"; "multi_location"; "franchise"; "chain"]
                        (dft (VStr "single_location") plain)));
  ("contact", Nested [
     ("email", Path TString (req plain)); ("phone", str); ("website", str);
     ("address", Nested [
        ("street", str); ("city", str); ("state", str); ("country", str);
        ("zipCode", str);
        ("coordinates", Nested [
           ("type", Path TString (one_of ["Point"] (dft (VStr "Point") plain)));
           ("coordinates",
            Path (TArray TNumber) (dft (VArr [VNum 0; VNum 0]) plain))])])]);
  ("settings", Nested [
     ("timezone", strd "UTC"); ("currency", strd "USD"); ("language", strd "en");
     ("notifications", Nested [
        ("email", flag true); ("sms", flag false); ("push", flag false)]);
     ("features", Nested [
        ("customForms", flag false); ("customReports", flag false);
        ("aiInsights", flag false); ("integrations", flag false)])]);
  ("subscription", Nested [
     ("plan", Path TString (one_of plans (dft (VStr "basic") plain)));
     ("status", Path TString (one_of statuses (dft (VStr "trial") plain)));
     ("trialEndsAt", Path TDate plain);
     ("features", Path (TArray TString) plain);
     ("limits", Nested [
        ("franchises", num 1); ("forms", num 5); ("submissions", num 100);
        ("staff", num 5); ("storage", num 1024)])])]
  ++ isActive_createdAt_updatedAt).

Definition openClose : schema :=
  Nested [("open", str); ("close", str); ("closed", flag false)].

(** models/Franchise.js *)
Definition franchiseSchema : schema := Nested ([
  ("name", Path TString (req (trimmed (maxlen 100 plain))));
  ("businessId", Path TObjectId (refers "Business" (req plain)));
  ("managerId", Path TObjectId (refers "User" (dft VNull plain)));
  ("address", Nested [
     ("street", Path TString (req plain)); ("city", Path TString (req plain));
     ("state", Path TString (req plain)); ("country", Path TString (req plain));
     ("zipCode", Path TString (req plain));
     ("coordinates", Nested [
        ("type", Path TString (one_of ["Point"] (dft (VStr "Point") plain)));
        ("coordinates", Path (TArray TNumber) (req plain))])]);
  ("contact", Nested [("phone", str); ("email", str); ("website", str)]);
  ("settings", Nested [
     ("timezone", strd "UTC");
     ("operatingHours", Nested [
        ("monday", openClose); ("tuesday", openClose); ("wednesday", openClose);
        ("thursday", openClose); ("friday", openClose); ("saturday", openClose);
        ("sunday", openClose)]);
     ("features", Nested [
        ("wifi", flag false); ("parking", flag false); ("delivery", flag false);
        ("takeout", flag false); ("outdoorSeating", flag false)])]);
  ("capacity", Nested [("maxCustomers", num 50); ("seatingCapacity", num 30)])]
  ++ isActive_createdAt_updatedAt).

(** The models of the service; [User], [Staff] and [Form] are only
    referred to (by [ref]) and belong to other services. *)
Inductive model := Organization | Brand | Business | Franchise | User | Staff | Form.

Global Instance model_eq_dec : EqDecision model.
Proof. solve_decision. Defined.

Definition modelName (m : model) : string :=
  match m with
  | Organization => "Organization" | Brand => "Brand" | Business => "Business"
  | Franchise => "Franchise" | User => "User" | Staff => "Staff" | Form => "Form"
  end.

(** The schema a model was compiled from; the models of other services
    have no schema here. *)
Definition schema_of (m : model) : schema :=
  match m with
  | Organization => organizationSchema
  | Brand => brandSchema
  | Business => businessSchema
  | Franchise => franchiseSchema
  | _ => Nested []
  end.

(** ** Documents under a schema *)

(** A cast keeps a value of the declared type, and [null]. *)
Fixpoint cast (t : stype) (v : value) : option value :=
  match t, v with
  | _, VNull => Some VNull
  | TString, VStr _ | TObjectId, VStr _ => Some v
  | TNumber, VNum _ | TDate, VNum _ => Some v
  | TBoolean, VBool _ => Some v
  | TArray e, VArr l => VArr <$> mapM (cast e) l
  | _, _ => None
  end.

Definition setters (o : options) (v : value) : value :=
  match v with
  | VStr s =>
      let s := if o_lowercase o then toLowerCase s else s in
      VStr (if o_trim o then trim s else s)
  | _ => v
  end.

(** The value of a path the input leaves [undefined]; an array path
    defaults to the empty array. *)
Definition default_value (now : Z) (t : stype) (o : options) : option value :=
  match dflt o, t with
  | Default v, _ => Some v
  | DateNow, _ => Some (VNum now)
  | NoDefault, TArray _ => Some (VArr [])
  | NoDefault, _ => None
  end.

Definition sub (pfx k : string) : string :=
  if bool_decide (pfx = "") then k else pfx +:+ "." +:+ k.

(** [new Model(input)] below one schema node: the value of the node
    ([None]: the path is not set) and the paths whose cast failed.
    Keys outside the schema are dropped (strict mode); a nested object
    with no path set is not stored (minimize). *)
Fixpoint build (now : Z) (s : schema) (pfx : string) (input : option value)
  : option value * list string :=
  match s with
  | Path t o =>
      match input with
      | None => (default_value now t o, [])
      | Some v => match cast t v with
                  | Some v' => (Some (setters o v'), [])
                  | None => (None, [pfx])
                  end
      end
  | Nested children =>
      match input with
      | Some VNull => (Some VNull, [])
      | Some (VObj _) | None =>
          let r := foldr (fun ks acc =>
                     let '(k, s') := ks in
                     let '(v, es) := build now s' (sub pfx k)
                                       (match input with
                                        | Some i => prop k i
                                        | None => None
                                        end) in
                     (match v with
                      | Some x => <[k := x]> (acc.1)
                      | None => acc.1
                      end, es ++ acc.2))
                   (∅, []) children in
          (if bool_decide (r.1 = ∅) then None else Some (VObj r.1), r.2)
      | Some _ => (None, [pfx])
      end
  end.

(** The [required] validator: [undefined] and [null] fail, and so does
    the empty string on a String path. *)
Definition missing (t : stype) (v : option value) : bool :=
  match v with
  | None | Some VNull => true
  | Some (VStr s) => match t with
                     | TString => bool_decide (s = "")
                     | _ => false
                     end
  | Some _ => false
  end.

Definition enum_ok (o : options) (v : option value) : bool :=
  match enum o, v with
  | Some allowed, Some (VStr s) => bool_decide (s ∈ allowed)
  | _, _ => true
  end.

Definition maxlength_ok (o : options) (v : option value) : bool :=
  match maxlength o, v with
  | Some n, Some (VStr s) => bool_decide (String.length s ≤ n)%nat
  | _, _ => true
  end.

(** [doc.validate()]: the paths that fail a validator. *)
Fixpoint validate (s : schema) (pfx : string) (v : option value) : list string :=
  match s with
  | Path t o =>
      if required o && missing t v then [pfx]
      else if enum_ok o v && maxlength_ok o v then [] else [pfx]
  | Nested children =>
      flat_map (fun ks => let '(k, s') := ks in
                          validate s' (sub pfx k)
                            (match v with Some i => prop k i | None => None end))
               children
  end.

(** ** The store *)

Record Store := {
  organizations : list doc;
  brands : list doc;
  businesses : list doc;
  franchises : list doc;
  users : list doc;
  staff : list doc;
  forms : list doc
}.

Definition collection (m : model) (s : Store) : list doc :=
  match m with
  | Organization => organizations s
  | Brand => brands s
  | Business => businesses s
  | Franchise => franchises s
  | User => users s
  | Staff => staff s
  | Form => forms s
  end.

Definition set_collection (m : model) (c : list doc) (s : Store) : Store :=
  {| organizations := if decide (m = Organization) then c else organizations s;
     brands := if decide (m = Brand) then c else brands s;
     businesses := if decide (m = Business) then c else businesses s;
     franchises := if decide (m = Franchise) then c else franchises s;
     users := if decide (m = User) then c else users s;
     staff := if decide (m = Staff) then c else staff s;
     forms := if decide (m = Form) then c else forms s |}.

Definition empty_store : Store :=
  {| organizations := []; brands := []; businesses := []; franchises := [];
     users := []; staff := []; forms := [] |}.

(** The world a request runs in: the store, the wall clock as the
    sequence of its future readings, and the ObjectId generator. *)
Record World := {
  db : Store;
  clock : nat → Z;
  reads : nat;
  objectIds : nat → string;
  minted : nat
}.

Definition with_db (s : Store) (w : World) : World :=
  {| db := s; clock := clock w; reads := reads w;
     objectIds := objectIds w; minted := minted w |}.

(** [Date.now()], [new Date()] *)
Definition Date_now (w : World) : Z * World :=
  (clock w (reads w),
   {| db := db w; clock := clock w; reads := S (reads w);
      objectIds := objectIds w; minted := minted w |}).

(** [new ObjectId()] *)
Definition new_ObjectId (w : World) : string * World :=
  (objectIds w (minted w),
   {| db := db w; clock := clock w; reads := reads w;
      objectIds := objectIds w; minted := S (minted w) |}).

(** ** Queries *)

Inductive condition :=
| Is (v : value)             (* { path: v } *)
| In_ (vs : list value).     (* { path: { $in: vs } } *)

(** A missing field compares as [null]. *)
Definition equals (x : value) (v : option value) : bool :=
  scalar_eqb x (default VNull v).

Global Arguments equals : simpl never.

Definition holds (c : condition) (v : option value) : bool :=
  match c with
  | Is x => equals x v
  | In_ xs => existsb (fun x => equals x v) xs
  end.

Abbreviation filter_ := (list (string * condition)).

Definition matches (f : filter_) (d : doc) : bool :=
  forallb (fun kc => holds kc.2 (d !! kc.1)) f.

(** [Model.find(filter)] *)
Definition find (f : filter_) (c : list doc) : list doc :=
  filter (fun d => matches f d = true) c.

(** [Model.findById(id)] *)
Definition findById (id : string) (c : list doc) : option doc :=
  head (find [("_id", Is (VStr id))] c).

(** *** Sorting

    The order MongoDB compares sort keys in: across types by the rank
    of the type (a missing key ranks as null), within numbers, strings
    and booleans by value. Strings compare by bytes. *)
Definition bson_rank (v : option value) : nat :=
  match v with
  | None | Some VNull => 0
  | Some (VNum _) => 1
  | Some (VStr _) => 2
  | Some (VObj _) => 3
  | Some (VArr _) => 4
  | Some (VBool _) => 5
  end.

Definition bson_leb (a b : option value) : bool :=
  match a, b with
  | Some (VNum x), Some (VNum y) => bool_decide (x ≤ y)%Z
  | Some (VStr x), Some (VStr y) => String.leb x y
  | Some (VBool x), Some (VBool y) => implb x y
  | _, _ => bool_decide (bson_rank a ≤ bson_rank b)%nat
  end.

Inductive direction := Ascending | Descending.   (* 1, -1 *)

Definition sort_le (k : string) (dir : direction) : relation doc :=
  fun a b => match dir with
             | Ascending => bson_leb (a !! k) (b !! k) = true
             | Descending => bson_leb (b !! k) (a !! k) = true
             end.

Global Instance sort_le_dec k dir a b : Decision (sort_le k dir a b).
Proof. unfold sort_le; destruct dir; apply _. Defined.

(** [query.sort({ k: dir })] *)
Definition sort (k : string) (dir : direction) (c : list doc) : list doc :=
  merge_sort (sort_le k dir) c.

(** [query.limit(n)]; zero is no limit. *)
Definition limit (n : nat) (c : list doc) : list doc :=
  match n with
  | O => c
  | _ => take n c
  end.

(** [query.skip(n)] *)
Definition skip (n : nat) (c : list doc) : list doc := drop n c.

(** *** Populate *)

(** The count virtuals the schemas declare:
    [schema.virtual(name, { ref, localField: '_id', foreignField, count: true })]. *)
Definition virtual_ (m : model) (name : string) : option (model * string) :=
  match m, name with
  | Organization, "brandCount" => Some (Brand, "organizationId")
  | Organization, "businessCount" => Some (Business, "organizationId")
  | Brand, "businessCount" => Some (Business, "brandId")
  | Business, "franchiseCount" => Some (Franchise, "businessId")
  | Business, "staffCount" => Some (Staff, "businessId")
  | Franchise, "staffCount" => Some (Staff, "franchiseId")
  | Franchise, "formCount" => Some (Form, "franchiseId")
  | _, _ => None
  end.

(** The number a count virtual stands for: the documents of the
    referred collection whose foreign field is this document's [_id]. *)
Definition count_of (target : list doc) (foreignField : string) (d : doc) : Z :=
  Z.of_nat (length (find [(foreignField, Is (default VNull (d !! "_id")))] target)).

Definition model_named (n : string) : option model :=
  match n with
  | "Organization" => Some Organization | "Brand" => Some Brand
  | "Business" => Some Business | "Franchise" => Some Franchise
  | "User" => Some User | "Staff" => Some Staff | "Form" => Some Form
  | _ => None
  end.

(** The model a top-level path refers to ([ref]). *)
Definition ref_of (m : model) (path : string) : option model :=
  match schema_of m with
  | Nested children =>
      match list_find (fun ks => ks.1 = path) children with
      | Some (_, (_, Path _ o)) => ref o ≫= model_named
      | _ => None
      end
  | _ => None
  end.

Definition select (keys : list string) (d : doc) : doc :=
  filter (fun kv => kv.1 ∈ keys) d.

(** [query.populate(path, select)] on one document: a count virtual is
    set to its count; a reference is replaced by the selected fields of
    the document it refers to, or by [null] when there is none. *)
Definition populate (m : model) (path : string) (keys : list string)
    (st : Store) (d : doc) : doc :=
  match virtual_ m path with
  | Some (target, foreignField) =>
      <[path := VNum (count_of (collection target st) foreignField d)]> d
  | None =>
      match ref_of m path, d !! path with
      | Some target, Some (VStr id) =>
          match findById id (collection target st) with
          | Some t => <[path := VObj (select ("_id" :: keys) t)]> d
          | None => <[path := VNull]> d
          end
      | _, _ => d
      end
  end.

(** ** Writing *)

Inductive error :=
| ValidationError (paths : list string)
| CastError (path : string)
| DuplicateKey
| ImmutableField (path : string)
| TypeError.

Inductive completion (A : Type) :=
| Return (a : A)
| Throw (e : error).
Arguments Return {A} a.
Arguments Throw {A} e.

(** [new Model(body)]: the document and the paths whose cast failed.
    The [Date.now] defaults of [createdAt] and [updatedAt] are evaluated
    here (the one of [updatedAt] is overwritten on save before it can be
    seen, so one reading of the clock stands for both); [_id] is the one
    in the body, or a new ObjectId. *)
Definition new_ (m : model) (body : value) (w : World)
  : (doc * list string) * World :=
  let '(now, w) := Date_now w in
  let '(id, id_errors, w) :=
    match prop "_id" body with
    | Some (VStr id) => (VStr id, [], w)
    | Some _ => (VNull, ["_id"], w)
    | None => let '(id, w) := new_ObjectId w in (VStr id, [], w)
    end in
  let '(v, errors) := build now (schema_of m) "" (Some (VObj (fields_of body))) in
  ((<["_id" := id]> (fields_of (default VNull v)), id_errors ++ errors), w).

(** The paths with [unique: true]. *)
Definition unique_paths (m : model) : list string :=
  match schema_of m with
  | Nested children =>
      omap (fun ks => match ks.2 with
                      | Path _ o => if unique o then Some ks.1 else None
                      | Nested _ => None
                      end) children
  | _ => []
  end.

(** A unique index holds one document per key, and a document without
    the field is indexed under [null]; [_id] is always unique. *)
Definition duplicate (m : model) (d : doc) (others : list doc) : bool :=
  existsb (fun k => existsb (fun e => equals (default VNull (d !! k)) (e !! k)) others)
          ("_id" :: unique_paths m).

(** [timestamps: true] on a new document: [createdAt] is set unless it
    has a value, and [updatedAt] takes the value of [createdAt]. *)
Definition timestamps_on_save (ts : Z) (d : doc) : doc :=
  let created := match d !! "createdAt" with
                 | None | Some VNull => VNum ts
                 | Some c => c
                 end in
  <["updatedAt" := created]> (<["createdAt" := created]> d).

(** [schema.pre('save', function(next) { this.updatedAt = new Date(); next(); })],
    registered by each of the four schemas. *)
Definition pre_save (m : model) (d : doc) (w : World) : doc * World :=
  match m with
  | Organization | Brand | Business | Franchise =>
      let '(now, w) := Date_now w in (<["updatedAt" := VNum now]> d, w)
  | _ => (d, w)
  end.

(** [doc.save()] for a new document: validation, the timestamps hook,
    the schema's own pre-save hook, then the insert. *)
Definition save (m : model) (d : doc) (cast_errors : list string) (w : World)
  : completion doc * World :=
  match cast_errors ++ validate (schema_of m) "" (Some (VObj d)) with
  | _ :: _ as paths => (Throw (ValidationError paths), w)
  | [] =>
      let '(ts, w) := Date_now w in
      let d := timestamps_on_save ts d in
      let '(d, w) := pre_save m d w in
      if duplicate m d (collection m (db w)) then (Throw DuplicateKey, w)
      else (Return d, with_db (set_collection m (collection m (db w) ++ [d]) (db w)) w)
  end.

(** The cast of one [$set] operand. A nested object is cast key by key
    and set as a whole. *)
Fixpoint cast_update (s : schema) (v : value) : option value :=
  match s with
  | Path t o => setters o <$> cast t v
  | Nested children =>
      match v with
      | VNull => Some VNull
      | VObj m =>
          VObj <$> foldr (fun ks acc =>
                     let '(k, s') := ks in
                     match m !! k with
                     | None => acc
                     | Some x => match cast_update s' x, acc with
                                 | Some x', Some a => Some (<[k := x']> a)
                                 | _, _ => None
                                 end
                     end) (Some ∅) children
      | _ => None
      end
  end.

(** The [$set] document of an update over the top-level paths of a
    schema: the keys of the body that are paths of the schema, cast;
    [timestamps: true] drops [createdAt] and sets [updatedAt] to the
    current time. [None] is a cast error. *)
Definition set_fold (body : doc) (now : Z) (children : list (string * schema))
  : option doc :=
  foldr (fun ks acc =>
           let '(k, s') := ks in
           if bool_decide (k = "createdAt") || bool_decide (k = "updatedAt")
           then acc
           else match body !! k with
                | None => acc
                | Some x => match cast_update s' x, acc with
                            | Some x', Some a => Some (<[k := x']> a)
                            | _, _ => None
                            end
                end)
        (Some {["updatedAt" := VNum now]}) children.

Definition update_set (m : model) (body : doc) (now : Z) : option doc :=
  match schema_of m with
  | Nested children => set_fold body now children
  | _ => Some ∅
  end.

(** Replace the first document with this [_id]. *)
Fixpoint replace (id : string) (d' : doc) (c : list doc) : list doc :=
  match c with
  | [] => []
  | d :: c' => if matches [("_id", Is (VStr id))] d then d' :: c'
               else d :: replace id d' c'
  end.

Definition without (id : string) (c : list doc) : list doc :=
  filter (fun d => matches [("_id", Is (VStr id))] d = false) c.

(** [Model.findByIdAndUpdate(id, body, { new: true })]: the document
    after the update, or [null]. Validators do not run on updates. *)
Definition findByIdAndUpdate (m : model) (id : string) (body : value) (w : World)
  : completion (option doc) * World :=
  let '(now, w) := Date_now w in
  match update_set m (fields_of body) now with
  | None => (Throw (CastError ""), w)
  | Some set =>
      match findById id (collection m (db w)) with
      | None => (Return None, w)
      | Some d =>
          let d' := set ∪ d in
          if match prop "_id" body with
             | Some v => negb (equals v (d !! "_id"))
             | None => false
             end
          then (Throw (ImmutableField "_id"), w)
          else if duplicate m d' (without id (collection m (db w)))
          then (Throw DuplicateKey, w)
          else (Return (Some d'),
                with_db (set_collection m (replace id d' (collection m (db w))) (db w)) w)
      end
  end.

(** ** The service: the Express application *)

Record Response := { status : nat; json : value }.

(** [res.status(st).json({ ... })] *)
Definition respond (st : nat) (fields : list (string * value)) : Response :=
  {| status := st; json := VObj (list_to_map fields) |}.

Definition failure (st : nat) (message : string) : Response :=
  respond st [("success", VBool false); ("error", VStr message)].

Definition success (st : nat) (data : value) : Response :=
  respond st [("success", VBool true); ("data", data)].

Definition listing (docs : list doc) : Response :=
  respond 200 [("success", VBool true); ("data", VArr (VObj <$> docs));
               ("count", VNum (Z.of_nat (length docs)))].

Record Query := {
  q_isActive : option string;
  q_brandId : option string;
  q_limit : option nat;
  q_offset : option nat
}.

Definition no_query : Query :=
  {| q_isActive := None; q_brandId := None; q_limit := None; q_offset := None |}.

(** [if (isActive !== undefined) filter.isActive = isActive === 'true'] *)
Definition isActive_filter (q : Query) : filter_ :=
  match q_isActive q with
  | Some s => [("isActive", Is (VBool (bool_decide (s = "true"))))]
  | None => []
  end.

(** [if (brandId) filter.brandId = brandId] *)
Definition brandId_filter (q : Query) : filter_ :=
  match q_brandId q with
  | Some s => if bool_decide (s = "") then [] else [("brandId", Is (VStr s))]
  | None => []
  end.

(** [.limit(parseInt(limit)).skip(parseInt(offset)).sort(...)] with
    [limit = 50, offset = 0] by default; the store sorts, then skips,
    then limits. *)
Definition page (q : Query) (k : string) (dir : direction) (c : list doc) : list doc :=
  limit (default 50%nat (q_limit q)) (skip (default 0%nat (q_offset q)) (sort k dir c)).

(** GET /api/organizations *)
Definition get_organizations (q : Query) (w : World) : Response * World :=
  let organizations :=
    populate Organization "businessCount" [] (db w) <$>
      (populate Organization "brandCount" [] (db w) <$>
         page q "createdAt" Descending
           (find (isActive_filter q) (collection Organization (db w)))) in
  (listing organizations, w).

(** GET /api/organizations/:id *)
Definition get_organization (id : string) (w : World) : Response * World :=
  match findById id (collection Organization (db w)) with
  | None => (failure 404 "Organization not found", w)
  | Some d =>
      (success 200
         (VObj (populate Organization "businessCount" [] (db w)
                  (populate Organization "brandCount" [] (db w) d))), w)
  end.

(** The four create handlers: [new Model(req.body)], [save()], 201; any
    exception is caught and answered with 500. *)
Definition create (m : model) (noun : string) (body : value) (w : World)
  : Response * World :=
  let '((d, cast_errors), w) := new_ m body w in
  match save m d cast_errors w with
  | (Return d, w) => (success 201 (VObj d), w)
  | (Throw _, w) => (failure 500 ("Failed to create " +:+ noun), w)
  end.

(** The three update handlers: [findByIdAndUpdate(id, req.body, { new: true })]. *)
Definition update (m : model) (Noun noun : string) (id : string) (body : value)
    (w : World) : Response * World :=
  match findByIdAndUpdate m id body w with
  | (Return None, w) => (failure 404 (Noun +:+ " not found"), w)
  | (Return (Some d), w) => (success 200 (VObj d), w)
  | (Throw _, w) => (failure 500 ("Failed to update " +:+ noun), w)
  end.

(** POST /api/organizations, PUT /api/organizations/:id *)
Definition post_organizations := create Organization "organization".
Definition put_organization := update Organization "Organization" "organization".

(** GET /api/organizations/:orgId/brands *)
Definition get_brands (orgId : string) (w : World) : Response * World :=
  let brands :=
    sort "name" Ascending
      (find [("organizationId", Is (VStr orgId)); ("isActive", Is (VBool true))]
            (collection Brand (db w))) in
  (listing brands, w).

(** POST /api/brands *)
Definition post_brands := create Brand "brand".

(** GET /api/organizations/:orgId/businesses *)
Definition get_businesses (orgId : string) (q : Query) (w : World) : Response * World :=
  let businesses :=
    populate Business "staffCount" [] (db w) <$>
      (populate Business "franchiseCount" [] (db w) <$>
         (populate Business "brandId" ["name"] (db w) <$>
            page q "createdAt" Descending
              (find ([("organizationId", Is (VStr orgId))]
                       ++ brandId_filter q ++ isActive_filter q)
                    (collection Business (db w))))) in
  (listing businesses, w).

(** GET /api/businesses/:id *)
Definition get_business (id : string) (w : World) : Response * World :=
  match findById id (collection Business (db w)) with
  | None => (failure 404 "Business not found", w)
  | Some d =>
      (success 200
         (VObj (populate Business "staffCount" [] (db w)
                  (populate Business "franchiseCount" [] (db w)
                     (populate Business "brandId" ["name"] (db w) d)))), w)
  end.

(** POST /api/businesses, PUT /api/businesses/:id *)
Definition post_businesses := create Business "business".
Definition put_business := update Business "Business" "business".

(** GET /api/businesses/:businessId/franchises *)
Definition get_franchises (businessId : string) (q : Query) (w : World)
  : Response * World :=
  let franchises :=
    populate Franchise "formCount" [] (db w) <$>
      (populate Franchise "staffCount" [] (db w) <$>
         (populate Franchise "managerId" ["firstName"; "lastName"; "email"] (db w) <$>
            page q "name" Ascending
              (find ([("businessId", Is (VStr businessId))] ++ isActive_filter q)
                    (collection Franchise (db w))))) in
  (listing franchises, w).

(** GET /api/franchises/:id *)
Definition get_franchise (id : string) (w : World) : Response * World :=
  match findById id (collection Franchise (db w)) with
  | None => (failure 404 "Franchise not found", w)
  | Some d =>
      (success 200
         (VObj (populate Franchise "formCount" [] (db w)
                  (populate Franchise "staffCount" [] (db w)
                     (populate Franchise "managerId" ["firstName"; "lastName"; "email"]
                        (db w) d)))), w)
  end.

(** POST /api/franchises, PUT /api/franchises/:id *)
Definition post_franchises := create Franchise "franchise".
Definition put_franchise := update Franchise "Franchise" "franchise".

(** GET /api/organizations/:orgId/hierarchy *)
Definition get_hierarchy (orgId : string) (w : World) : Response * World :=
  match findById orgId (collection Organization (db w)) with
  | None => (failure 404 "Organization not found", w)
  | Some organization =>
      let brands :=
        find [("organizationId", Is (VStr orgId)); ("isActive", Is (VBool true))]
             (collection Brand (db w)) in
      let businesses :=
        populate Business "brandId" ["name"] (db w) <$>
          find [("organizationId", Is (VStr orgId)); ("isActive", Is (VBool true))]
               (collection Business (db w)) in
      let franchises :=
        find [("businessId", In_ ((fun b => default VNull (b !! "_id")) <$> businesses));
              ("isActive", Is (VBool true))]
             (collection Franchise (db w)) in
      (success 200
         (VObj (list_to_map
                  [("organization", VObj organization);
                   ("brands", VArr (VObj <$> brands));
                   ("businesses", VArr (VObj <$> businesses));
                   ("franchises", VArr (VObj <$> franchises))])), w)
  end.

(** GET /health and GET /ready; the timestamp and the uptime of the
    process are not part of the model. *)
Definition get_health (w : World) : Response * World :=
  (respond 200 [("status", VStr "healthy"); ("service", VStr "keephy_organizations")], w).
Definition get_ready (w : World) : Response * World :=
  (respond 200 [("status", VStr "ready"); ("service", VStr "keephy_organizations")], w).

(** [app.use('*', ...)]: the handler of last resort. *)
Definition route_not_found (w : World) : Response * World :=
  (failure 404 "Route not found", w).

Inductive method := GET | POST | PUT | DELETE.

Record Request := {
  verb : method;
  path : list string;     (* the segments of the URL path *)
  query : Query;
  body : value
}.

(** The fixed segments of the registered routes. Express compares them
    without regard to case; any other segment can only fill a parameter. *)
Inductive segment :=
| seg_health | seg_ready | seg_api | seg_organizations | seg_brands
| seg_businesses | seg_franchises | seg_hierarchy | seg_other.

Definition segment_of (s : string) : segment :=
  let s := toLowerCase s in
  if bool_decide (s = "health") then seg_health
  else if bool_decide (s = "ready") then seg_ready
  else if bool_decide (s = "api") then seg_api
  else if bool_decide (s = "organizations") then seg_organizations
  else if bool_decide (s = "brands") then seg_brands
  else if bool_decide (s = "businesses") then seg_businesses
  else if bool_decide (s = "franchises") then seg_franchises
  else if bool_decide (s = "hierarchy") then seg_hierarchy
  else seg_other.

(** The routes in the order they are registered. *)
Definition app (r : Request) (w : World) : Response * World :=
  match verb r, segment_of <$> path r, path r with
  | GET, [seg_health], _ => get_health w
  | GET, [seg_ready], _ => get_ready w
  | GET, [seg_api; seg_organizations], _ => get_organizations (query r) w
  | GET, [seg_api; seg_organizations; _], [_; _; id] => get_organization id w
  | POST, [seg_api; seg_organizations], _ => post_organizations (body r) w
  | PUT, [seg_api; seg_organizations; _], [_; _; id] => put_organization id (body r) w
  | GET, [seg_api; seg_organizations; _; seg_brands], [_; _; orgId; _] =>
      get_brands orgId w
  | POST, [seg_api; seg_brands], _ => post_brands (body r) w
  | GET, [seg_api; seg_organizations; _; seg_businesses], [_; _; orgId; _] =>
      get_businesses orgId (query r) w
  | GET, [seg_api; seg_businesses; _], [_; _; id] => get_business id w
  | POST, [seg_api; seg_businesses], _ => post_businesses (body r) w
  | PUT, [seg_api; seg_businesses; _], [_; _; id] => put_business id (body r) w
  | GET, [seg_api; seg_businesses; _; seg_franchises], [_; _; businessId; _] =>
      get_franchises businessId (query r) w
  | GET, [seg_api; seg_franchises; _], [_; _; id] => get_franchise id w
  | POST, [seg_api; seg_franchises], _ => post_franchises (body r) w
  | PUT, [seg_api; seg_franchises; _], [_; _; id] => put_franchise id (body r) w
  | GET, [seg_api; seg_organizations; _; seg_hierarchy], [_; _; orgId; _] =>
      get_hierarchy orgId w
  | _, _, _ => route_not_found w
  end.

(** ** Instance methods *)

(** [a < b] on what a count or a Number path holds: a number, [null]
    (which converts to 0) or [undefined] (which compares false). *)
Definition to_number (v : option value) : option Z :=
  match v with
  | Some (VNum n) => Some n
  | Some VNull => Some 0%Z
  | Some (VBool b) => Some (if b then 1 else 0)%Z
  | _ => None
  end.

Definition js_lt (a b : option value) : bool :=
  match to_number a, to_number b with
  | Some x, Some y => bool_decide (x < y)%Z
  | _, _ => false
  end.

(** [this.k] for a nested path [k]. *)
Definition nested (k : string) (this : doc) : value := default VNull (this !! k).

Module Organization.

Definition getActiveBrands (this : doc) (st : Store) : list doc :=
  find [("organizationId", Is (default VNull (this !! "_id"))); ("isActive", Is (VBool true))]
       (collection Brand st).

Definition getActiveBusinesses (this : doc) (st : Store) : list doc :=
  find [("organizationId", Is (default VNull (this !! "_id"))); ("isActive", Is (VBool true))]
       (collection Business st).

Definition checkLimit (this : doc) (limitType : string) : bool :=
  let limit := prop limitType (nested "limits" this) in
  match limit with
  | Some VNull => true
  | _ =>
      (* switch (limitType) *)
      if bool_decide (limitType = "brands") then js_lt (this !! "brandCount") limit
      else if bool_decide (limitType = "businesses")
           then js_lt (this !! "businessCount") limit
      else true
  end.

End Organization.

Module Brand.

Definition getActiveBusinesses (this : doc) (st : Store) : list doc :=
  find [("brandId", Is (default VNull (this !! "_id"))); ("isActive", Is (VBool true))]
       (collection Business st).

Definition checkLimit (this : doc) (limitType : string) : bool :=
  let limit := prop limitType (nested "limits" this) in
  match limit with
  | Some VNull => true
  | _ =>
      (* switch (limitType) *)
      if bool_decide (limitType = "businesses")
      then js_lt (this !! "businessCount") limit
      else true
  end.

End Brand.

Module Business.

Definition getActiveFranchises (this : doc) (st : Store) : list doc :=
  find [("businessId", Is (default VNull (this !! "_id"))); ("isActive", Is (VBool true))]
       (collection Franchise st).

Definition getActiveStaff (this : doc) (st : Store) : list doc :=
  find [("businessId", Is (default VNull (this !! "_id"))); ("isActive", Is (VBool true))]
       (collection Staff st).

Definition checkLimit (this : doc) (limitType : string) : bool :=
  let limit := prop limitType (default VNull (prop "limits" (nested "subscription" this))) in
  match limit with
  | Some VNull => true
  | _ =>
      (* switch (limitType) *)
      if bool_decide (limitType = "franchises")
      then js_lt (this !! "franchiseCount") limit
      else if bool_decide (limitType = "staff") then js_lt (this !! "staffCount") limit
      else true
  end.

End Business.

(** A [Date], read in the time zone of the process. *)
Record Date := {
  weekday : nat;      (* 0 is Sunday *)
  hours : nat;
  minutes : nat;
  seconds : nat
}.

Definition digit (n : nat) : ascii := ascii_of_nat (48 + n mod 10).

Definition two_digits (n : nat) : string :=
  String (digit (n / 10)) (String (digit n) EmptyString).

(** [date.toTimeString()], up to the seconds. *)
Definition toTimeString (d : Date) : string :=
  two_digits (hours d) +:+ ":" +:+ two_digits (minutes d) +:+ ":" +:+ two_digits (seconds d).

(** The methods of [Date.prototype] that read a date.
    [toLocaleLowerCase] is not one of them: it is a method of
    [String.prototype]. *)
Definition Date_prototype (name : string) : option (Date → value) :=
  match name with
  | "toTimeString" => Some (fun d => VStr (toTimeString d))
  | "getDay" => Some (fun d => VNum (Z.of_nat (weekday d)))
  | "getHours" => Some (fun d => VNum (Z.of_nat (hours d)))
  | "getMinutes" => Some (fun d => VNum (Z.of_nat (minutes d)))
  | "getSeconds" => Some (fun d => VNum (Z.of_nat (seconds d)))
  | _ => None
  end.

(** [date.name()]: a TypeError when [Date.prototype] has no such method. *)
Definition call (date : Date) (name : string) : completion value :=
  match Date_prototype name with
  | Some f => Return (f date)
  | None => Throw TypeError
  end.

(** [v.substring(0, n)] *)
Definition substring (n : nat) (v : value) : completion string :=
  match v with
  | VStr s => Return (substring0 n s)
  | _ => Throw TypeError
  end.

Definition truthy (v : option value) : bool :=
  match v with
  | None | Some VNull | Some (VBool false) => false
  | Some (VNum n) => negb (bool_decide (n = 0%Z))
  | Some (VStr s) => negb (bool_decide (s = ""))
  | Some _ => true
  end.

(** [s >= v] and [s <= v] for a string [s]: by code units against a
    string, false against [undefined]. *)
Definition str_ge (s : string) (v : option value) : bool :=
  match v with
  | Some (VStr t) => String.leb t s
  | _ => false
  end.
Definition str_le (s : string) (v : option value) : bool :=
  match v with
  | Some (VStr t) => String.leb s t
  | _ => false
  end.

Global Instance completion_bind : MBind completion :=
  fun A B k c => match c with
                 | Return a => k a
                 | Throw e => Throw e
                 end.

Module Franchise.

Definition getActiveStaff (this : doc) (st : Store) : list doc :=
  find [("franchiseId", Is (default VNull (this !! "_id"))); ("isActive", Is (VBool true))]
       (collection Staff st).


Definition isOpen (this : doc) (date : Date) : completion bool :=
  s ← call date "toLocaleLowerCase" ;
  day ← substring 3 s;
  match get ["operatingHours"; day] (nested "settings" this) with
  | None | Some VNull => Throw TypeError
  | Some daySettings =>
      if truthy (prop "closed" daySettings) then Return false
      else
        t ← call date "toTimeString";
        currentTime ← substring 5 t;
        Return (str_ge currentTime (prop "open" daySettings)
                && str_le currentTime (prop "close" daySettings))
  end.

End Franchise.

(** * Properties *)

(** ** What the statements are written with *)

Definition request (v : method) (p : list string) (q : Query) (b : value) : Request :=
  {| verb := v; path := p; query := q; body := b |}.

(** The child of a nested schema under a key, and the schema at a path
    ([contact.email] is the path [["contact"; "email"]]). *)
Fixpoint child (k : string) (children : list (string * schema)) : option schema :=
  match children with
  | [] => None
  | (k', s) :: rest => if decide (k' = k) then Some s else child k rest
  end.


(** The models this service writes. *)
Definition own (m : model) : Prop :=
  m = Organization ∨ m = Brand ∨ m = Business ∨ m = Franchise.




(** The world at start-up. *)
Definition initial (c : nat → Z) (ids : nat → string) : World :=
  {| db := empty_store; clock := c; reads := 0; objectIds := ids; minted := 0 |}.

(** The worlds the service can be in. *)
Inductive reachable : World → Prop :=
| reachable_initial c ids : reachable (initial c ids)
| reachable_app r w : reachable w → reachable (app r w).2.





(** ** What the proofs are written with *)


(** The world after [n] more readings of the clock. *)
Definition later (n : nat) (w : World) : World :=
  {| db := db w; clock := clock w; reads := n + reads w;
     objectIds := objectIds w; minted := minted w |}.

(** A new document as [save] stores it: the timestamps hook at the
    reading [ts], then the pre-save hook at the reading [now]. *)
Definition stamp (ts now : Z) (d : doc) : doc :=
  <["updatedAt" := VNum now]> (timestamps_on_save ts d).

(** The [_id] of a new document: the one in the body, or the ObjectId
    [oid] the generator hands out. *)
Definition identity (body : value) (oid : string) : value * list string :=
  match prop "_id" body with
  | Some (VStr id) => (VStr id, [])
  | Some _ => (VNull, ["_id"])
  | None => (VStr oid, [])
  end.

(** The document [new Model(body)] constructs at the reading [now]. *)
Definition constructed (m : model) (body : value) (now : Z) (oid : string) : doc :=
  <["_id" := (identity body oid).1]>
    (fields_of (default VNull
       (build now (schema_of m) "" (Some (VObj (fields_of body)))).1)).

Definition construction_errors (m : model) (body : value) (now : Z) (oid : string)
  : list string :=
  (identity body oid).2 ++ (build now (schema_of m) "" (Some (VObj (fields_of body)))).2.

(** The world once [new Model(body)] has run. *)
Definition after_new (body : value) (w : World) : World :=
  {| db := db w; clock := clock w; reads := S (reads w); objectIds := objectIds w;
     minted := match prop "_id" body with
               | None => S (minted w)
               | Some _ => minted w
               end |}.

(** The top-level paths of a model's schema. *)
Definition paths_of (m : model) : list (string * schema) :=
  match schema_of m with
  | Nested children => children
  | Path _ _ => []
  end.


(** ** Sample data *)

(** Well-formed ObjectIds: twenty-four hexadecimal digits. *)
Definition oid (n : nat) : string := "507f1f77bcf86cd7994390" +:+ two_digits n.

Definition object (fields : list (string * value)) : value := VObj (list_to_map fields).

Definition entity (fields : list (string * value)) : doc := list_to_map fields.

Definition capped : doc :=
  list_to_map
    [("limits", object [("users", VNum 0); ("forms", VNum 0); ("brands", VNum 0)]);
     ("subscription", object [("limits", object [("storage", VNum 0)])]);
     ("brandCount", VNum 7)].

Definition franchise_of (id businessId : string) (active : bool) : doc :=
  list_to_map [("_id", VStr id); ("businessId", VStr businessId); ("isActive", VBool active)].

(** A business allowed three franchises... *)
Definition shop : doc :=
  list_to_map
    [("_id", VStr (oid 21));
     ("subscription", object [("limits", object [("franchises", VNum 3)])])].

(** ...with two active franchises and a deactivated one. *)
Definition two_active_one_inactive : Store :=
  set_collection Franchise
    [franchise_of (oid 31) (oid 21) true; franchise_of (oid 32) (oid 21) true;
     franchise_of (oid 33) (oid 21) false]
    empty_store.

Definition open_monday (closed : bool) : doc :=
  list_to_map
    [("settings",
      object [("operatingHours",
               object [("monday",
                        object [("open", VStr "09:00"); ("close", VStr "17:00");
                                ("closed", VBool closed)])])])].

Definition monday_at (h m : nat) : Date :=
  {| weekday := 1; hours := h; minutes := m; seconds := 0 |}.

(** A start-up whose clock ticks at every reading and whose generator
    hands out [oid 0], [oid 1], ... *)
Definition boot : World :=
  initial (fun n => 1700000000000 + Z.of_nat n)%Z oid.

(** The document in the [data] of an answer. *)
Definition data_of (r : Response) : doc :=
  match get ["data"] (json r) with
  | Some (VObj d) => d
  | _ => ∅
  end.

Definition acme : value :=
  object [("name", VStr "Acme");
          ("contact", object [("email", VStr "ops@acme.test"); ("phone", VStr "555-0100")])].

(** The world once Acme has been created at start-up; its ObjectId is
    the first one handed out, [oid 0]. *)
Definition acme_created : World :=
  (app (request POST ["api"; "organizations"] no_query acme) boot).2.


Definition brand_of (id : nat) (name : string) (organization : nat) : doc :=
  entity [("_id", VStr (oid id)); ("name", VStr name);
          ("organizationId", VStr (oid organization)); ("isActive", VBool true)].

Definition business_of (id : nat) (brand : value) (active : bool) : doc :=
  entity [("_id", VStr (oid id)); ("organizationId", VStr (oid 1));
          ("brandId", brand); ("isActive", VBool active)].

(** An organization with two brands, three active businesses (one of
    them without a brand) and a deactivated one, and franchises under
    two of the active businesses. *)
Definition group : Store :=
  {| organizations := [entity [("_id", VStr (oid 1)); ("name", VStr "Group")]];
     brands := [brand_of 11 "North" 1; brand_of 12 "South" 1; brand_of 13 "Else" 2];
     businesses :=
       [business_of 21 (VStr (oid 11)) true; business_of 22 (VStr (oid 12)) true;
        business_of 23 VNull true; business_of 24 VNull false];
     franchises :=
       [franchise_of (oid 31) (oid 21) true; franchise_of (oid 32) (oid 21) true;
        franchise_of (oid 33) (oid 22) true; franchise_of (oid 34) (oid 24) true;
        franchise_of (oid 35) (oid 22) false];
     users := []; staff := []; forms := [] |}.

(** The identifiers of the documents in an array of an answer. *)
Definition ids (v : option value) : list (option value) :=
  match v with
  | Some (VArr l) => prop "_id" <$> l
  | _ => []
  end.


(** ** What the further statements are written with *)

(** The identifiers of a collection, in the order of the collection. *)
Definition ids_of (c : list doc) : list (option value) := (fun d => d !! "_id") <$> c.


(** The string the setters of a path make of a string. *)
Definition normalized (o : options) (x : string) : string :=
  match setters o (VStr x) with
  | VStr y => y
  | _ => x
  end.


Definition with_limit (n : nat) (q : Query) : Query :=
  {| q_isActive := q_isActive q; q_brandId := q_brandId q;
     q_limit := Some n; q_offset := q_offset q |}.

(** ** Further sample data *)









(** A franchise as a client posts it, for the business [oid 21]. *)
Definition kiosk : value :=
  object [("name", VStr "Kiosk"); ("businessId", VStr (oid 21));
          ("address",
           object [("street", VStr "1 Main St"); ("city", VStr "Springfield");
                   ("state", VStr "IL"); ("country", VStr "US"); ("zipCode", VStr "62701");
                   ("coordinates", object [("coordinates", VArr [VNum 0; VNum 0])])])].

(** * Proofs *)

(** ** Queries *)

Lemma equals_str (s : string) (v : option value) :
  equals (VStr s) v = true ↔ v = Some (VStr s).
Proof.
  unfold equals. destruct v as [[]|]; simpl; rewrite ?bool_decide_eq_true;
    split; intros H; try discriminate; congruence.
Qed.


Lemma elem_of_find (f : filter_) (c : list doc) (d : doc) :
  d ∈ find f c ↔ d ∈ c ∧ matches f d = true.
Proof. unfold find. rewrite list_elem_of_filter. tauto. Qed.

Lemma matches_cons (k : string) (c : condition) (f : filter_) (d : doc) :
  matches ((k, c) :: f) d = true ↔ holds c (d !! k) = true ∧ matches f d = true.
Proof. unfold matches. simpl. apply andb_true_iff. Qed.


Lemma matches_id (id : string) (d : doc) :
  matches [("_id", Is (VStr id))] d = true ↔ d !! "_id" = Some (VStr id).
Proof.
  rewrite matches_cons. simpl. rewrite equals_str. unfold matches. simpl. tauto.
Qed.

(** [findById] finds a document with that [_id], and none only when
    the collection has none. *)
Lemma findById_Some (id : string) (c : list doc) (d : doc) :
  findById id c = Some d → d ∈ c ∧ d !! "_id" = Some (VStr id).
Proof.
  unfold findById. intros H. apply head_Some_elem_of in H.
  apply elem_of_find in H. rewrite matches_id in H. exact H.
Qed.


(** ** Limits *)

Lemma get_nested (a b : string) (this : doc) :
  get [a; b] (VObj this) = prop b (nested a this).
Proof.
  unfold nested. simpl. destruct (this !! a) as [v|]; simpl; [|done].
  by destruct (prop b v).
Qed.

Lemma get_nested2 (a b c : string) (this : doc) :
  get [a; b; c] (VObj this) = prop c (default VNull (prop b (nested a this))).
Proof.
  unfold nested. simpl. destruct (this !! a) as [v|]; simpl; [|done].
  destruct (prop b v) as [v'|]; simpl; [|done]. by destruct (prop c v').
Qed.




(** C10. A limit type outside the ones a model's [checkLimit] switches
    on is never enforced: the method answers true whatever the limits
    and the counts of the document are. *)
Theorem checkLimit_unknown_limit_type (this : doc) (limitType : string) :
  (limitType ≠ "brands" → limitType ≠ "businesses" →
   Organization.checkLimit this limitType = true) ∧
  (limitType ≠ "businesses" → Brand.checkLimit this limitType = true) ∧
  (limitType ≠ "franchises" → limitType ≠ "staff" →
   Business.checkLimit this limitType = true).
Proof.
  unfold Organization.checkLimit, Brand.checkLimit, Business.checkLimit.
  repeat split; intros;
    repeat (rewrite bool_decide_eq_false_2 by done);
    repeat case_match; done.
Qed.

Lemma checkLimit_unknown_limit_type_witness :
  Organization.checkLimit capped "users" = true
  ∧ Brand.checkLimit capped "forms" = true
  ∧ Business.checkLimit capped "storage" = true.
Proof.
  split; [|split].
  - apply (checkLimit_unknown_limit_type capped "users"); discriminate.
  - apply (checkLimit_unknown_limit_type capped "forms"); discriminate.
  - apply (checkLimit_unknown_limit_type capped "storage"); discriminate.
Defined.




(** ** Opening hours *)

(** [isOpen] calls [toLocaleLowerCase] on its date; a [Date] has no such
    method, so the call throws before the hours are read. *)
Lemma isOpen_throws (this : doc) (date : Date) :
  Franchise.isOpen this date = Throw TypeError.
Proof. reflexivity. Qed.

(** C3, on the code. For a franchise open on Mondays from 09:00 to
    17:00, [isOpen] at Monday 12:00 does not answer true: it throws a
    TypeError, as it does at 20:00 and when the day is closed. *)
Theorem isOpen_monday_noon :
  Franchise.isOpen (open_monday false) (monday_at 12 0) = Throw TypeError
  ∧ Franchise.isOpen (open_monday false) (monday_at 20 0) = Throw TypeError
  ∧ Franchise.isOpen (open_monday true) (monday_at 12 0) = Throw TypeError.
Proof. repeat split. Qed.

(** ** Reading *)

(** [populate] touches the populated path only. *)
Lemma populate_other (m : model) (path k : string) (keys : list string)
    (st : Store) (d : doc) :
  k ≠ path → populate m path keys st d !! k = d !! k.
Proof.
  intros Hk. unfold populate.
  repeat case_match; rewrite ?lookup_insert_ne; done.
Qed.


Lemma matches_nil (d : doc) : matches [] d = true.
Proof. reflexivity. Qed.

Lemma status_success st data : status (success st data) = st.
Proof. reflexivity. Qed.



(** ** Listings *)

Lemma bson_leb_total (a b : option value) : bson_leb a b = true ∨ bson_leb b a = true.
Proof.
  destruct a as [[]|], b as [[]|]; simpl; rewrite ?bool_decide_eq_true;
    try (left; lia); try (right; lia).
  - destruct b, b0; auto.
  - lia.
  - apply String.leb_total.
Qed.

Lemma bson_leb_trans (a b c : option value) :
  bson_leb a b = true → bson_leb b c = true → bson_leb a c = true.
Proof.
  destruct a as [[]|], b as [[]|], c as [[]|]; simpl;
    rewrite ?bool_decide_eq_true; try lia; try done.
  - destruct b, b0, b1; done.
  - intros H1%Is_true_true H2%Is_true_true. apply Is_true_true.
    change (String.le s s1). by trans s0.
Qed.

Global Instance sort_le_total k dir : Total (sort_le k dir).
Proof. intros a b. unfold sort_le. destruct dir; apply bson_leb_total. Qed.

Global Instance sort_le_trans k dir : Transitive (sort_le k dir).
Proof.
  intros a b c. unfold sort_le. destruct dir; eauto using bson_leb_trans.
Qed.

(** How the order reads on the keys the listings sort by. *)
Lemma newest_first (a b : doc) (ta tb : Z) :
  a !! "createdAt" = Some (VNum ta) → b !! "createdAt" = Some (VNum tb) →
  sort_le "createdAt" Descending a b ↔ (tb ≤ ta)%Z.
Proof. unfold sort_le. intros -> ->. simpl. by rewrite bool_decide_eq_true. Qed.

Lemma by_name (a b : doc) (na nb : string) :
  a !! "name" = Some (VStr na) → b !! "name" = Some (VStr nb) →
  sort_le "name" Ascending a b ↔ String.le na nb.
Proof. unfold sort_le. intros -> ->. simpl. unfold String.le. by rewrite Is_true_true. Qed.






(** ** Writing *)

Lemma child_elem_of (k : string) (children : list (string * schema)) (s : schema) :
  child k children = Some s → (k, s) ∈ children.
Proof.
  induction children as [|[k' s'] rest IH]; simpl; [done|].
  destruct (decide (k' = k)) as [->|].
  - intros [= ->]. left.
  - intros H. right. auto.
Qed.














Lemma collection_set (m m' : model) (c : list doc) (st : Store) :
  collection m (set_collection m' c st) = if decide (m = m') then c else collection m st.
Proof. by destruct m, m'. Qed.

Lemma new_eq (m : model) (body : value) (w : World) :
  new_ m body w
  = ((constructed m body (clock w (reads w)) (objectIds w (minted w)),
      construction_errors m body (clock w (reads w)) (objectIds w (minted w))),
     after_new body w).
Proof.
  unfold new_, constructed, construction_errors, identity, after_new, Date_now, new_ObjectId.
  destruct (build _ _ _ _) as [v errors].
  by destruct (prop "_id" body) as [[]|].
Qed.

(** [save], step by step, for the models of the service. *)
Lemma save_spec (m : model) (d : doc) (errors : list string) (w : World) :
  own m →
  save m d errors w
  = match errors ++ validate (schema_of m) "" (Some (VObj d)) with
    | _ :: _ as paths => (Throw (ValidationError paths), w)
    | [] =>
        let d' := stamp (clock w (reads w)) (clock w (S (reads w))) d in
        if duplicate m d' (collection m (db w)) then (Throw DuplicateKey, later 2 w)
        else (Return d',
              with_db (set_collection m (collection m (db w) ++ [d']) (db w)) (later 2 w))
    end.
Proof.
  intros Hown. unfold save.
  destruct (errors ++ validate (schema_of m) "" (Some (VObj d))); [|done].
  by destruct Hown as [->|[->|[->| ->]]].
Qed.

(** A create handler, step by step. *)
Lemma create_eq (m : model) (noun : string) (body : value) (w : World) :
  own m →
  let d := constructed m body (clock w (reads w)) (objectIds w (minted w)) in
  let errors := construction_errors m body (clock w (reads w)) (objectIds w (minted w)) in
  let d' := stamp (clock w (S (reads w))) (clock w (S (S (reads w)))) d in
  create m noun body w
  = match errors ++ validate (schema_of m) "" (Some (VObj d)) with
    | _ :: _ => (failure 500 ("Failed to create " +:+ noun), after_new body w)
    | [] =>
        if duplicate m d' (collection m (db w))
        then (failure 500 ("Failed to create " +:+ noun), later 2 (after_new body w))
        else (success 201 (VObj d'),
              with_db (set_collection m (collection m (db w) ++ [d']) (db w))
                      (later 2 (after_new body w)))
    end.
Proof.
  intros Hown d errors d'. unfold create. rewrite new_eq, save_spec by done.
  fold d errors. destruct (errors ++ _); [|done].
  cbn zeta. cbn [after_new clock reads db]. fold d'.
  by destruct (duplicate m d' (collection m (db w))).
Qed.





Lemma paths_of_createdAt (m : model) :
  own m → child "createdAt" (paths_of m) = Some (Path TDate (dft_now plain)).
Proof. by intros [->|[->|[->| ->]]]. Qed.




Lemma success_data (st : nat) (x : value) : get ["data"] (json (success st x)) = Some x.
Proof. reflexivity. Qed.

Lemma success_inj (st st' : nat) (x y : value) : success st x = success st' y → x = y.
Proof.
  intros H. apply (f_equal (fun r => get ["data"] (json r))) in H.
  rewrite !success_data in H. congruence.
Qed.

Lemma failure_success (st st' : nat) (msg : string) (x : value) :
  st ≠ st' → failure st msg ≠ success st' x.
Proof. intros Hne H. apply (f_equal status) in H. done. Qed.

(** The document a successful create answers with. *)
Lemma create_success (m : model) (noun : string) (body : value) (w : World) (d' : doc) :
  own m →
  (create m noun body w).1 = success 201 (VObj d') →
  d' = stamp (clock w (S (reads w))) (clock w (S (S (reads w))))
             (constructed m body (clock w (reads w)) (objectIds w (minted w)))
  ∧ (create m noun body w).2
    = with_db (set_collection m (collection m (db w) ++ [d']) (db w))
              (later 2 (after_new body w)).
Proof.
  intros Hown. rewrite create_eq by done.
  destruct (_ ++ _); cbn [fst snd].
  - destruct (duplicate _ _ _); cbn [fst snd].
    + intros H. by apply failure_success in H.
    + intros H%success_inj. by injection H as <-.
  - intros H. by apply failure_success in H.
Qed.

Lemma create_failure (m : model) (noun : string) (body : value) (w : World) :
  own m →
  (∃ d', (create m noun body w).1 = success 201 (VObj d'))
  ∨ (db (create m noun body w).2 = db w
     ∧ clock (create m noun body w).2 = clock w
     ∧ (reads w ≤ reads (create m noun body w).2)%nat).
Proof.
  intros Hown. rewrite create_eq by done.
  destruct (_ ++ _); cbn [fst snd].
  - destruct (duplicate _ _ _); cbn [fst snd]; [right|left; by eexists].
    unfold later, after_new; cbn. repeat split; lia.
  - right. unfold later, after_new; cbn. repeat split; lia.
Qed.

(** *** Updates *)

Lemma update_set_fold (m : model) (body : doc) (now : Z) :
  own m → update_set m body now = set_fold body now (paths_of m).
Proof. by intros [->|[->|[->| ->]]]. Qed.

Lemma set_fold_spec (body : doc) (now : Z) (children : list (string * schema)) (set : doc) :
  set_fold body now children = Some set →
  set !! "updatedAt" = Some (VNum now)
  ∧ ∀ k, k ≠ "updatedAt" → is_Some (set !! k) → is_Some (body !! k).
Proof.
  revert set. induction children as [|[k0 s0] rest IH]; intros set.
  - intros [= <-]. split; [done|]. intros k Hk. by rewrite lookup_singleton_ne.
  - unfold set_fold in *. cbn [foldr].
    destruct (bool_decide (k0 = "createdAt") || bool_decide (k0 = "updatedAt")) eqn:Hskip;
      [apply IH|].
    apply orb_false_iff in Hskip as [_ Hu%bool_decide_eq_false].
    destruct (body !! k0) as [x|] eqn:Hx; [|apply IH].
    destruct (cast_update s0 x) as [x'|]; [|done].
    destruct (foldr _ _ rest) as [a|]; [|done].
    intros [= <-]. destruct (IH a eq_refl) as [Ha1 Ha2]. split.
    + by rewrite lookup_insert_ne.
    + intros k Hk. destruct (decide (k = k0)) as [->|Hne]; [by rewrite Hx|].
      rewrite lookup_insert_ne by done. by apply Ha2.
Qed.

(** The outcome of a successful update. *)
Lemma update_success (m : model) (Noun noun id : string) (body : value) (w : World)
    (d d' : doc) :
  own m →
  findById id (collection m (db w)) = Some d →
  (update m Noun noun id body w).1 = success 200 (VObj d') →
  ∃ set, update_set m (fields_of body) (clock w (reads w)) = Some set
         ∧ d' = set ∪ d
         ∧ (update m Noun noun id body w).2
           = with_db (set_collection m (replace id d' (collection m (db w))) (db w))
                     (later 1 w).
Proof.
  intros Hown Hfind. unfold update, findByIdAndUpdate, Date_now.
  cbn [db clock reads].
  destruct (update_set m (fields_of body) (clock w (reads w))) as [set|];
    cbn [fst snd]; [|intros H; by apply failure_success in H].
  rewrite Hfind.
  destruct (match prop "_id" body with Some v => _ | None => false end);
    cbn [fst snd]; [intros H; by apply failure_success in H|].
  destruct (duplicate _ _ _); cbn [fst snd]; [intros H; by apply failure_success in H|].
  intros H%success_inj. injection H as <-. by exists set.
Qed.

Lemma update_other (m : model) (Noun noun id : string) (body : value) (w : World) :
  (∃ d', (update m Noun noun id body w).1 = success 200 (VObj d')
         ∧ is_Some (findById id (collection m (db w))))
  ∨ (db (update m Noun noun id body w).2 = db w
     ∧ clock (update m Noun noun id body w).2 = clock w
     ∧ (reads w ≤ reads (update m Noun noun id body w).2)%nat).
Proof.
  unfold update, findByIdAndUpdate, Date_now. cbn [db clock reads].
  destruct (update_set _ _ _); cbn [fst snd]; [|right; cbn; repeat split; lia].
  destruct (findById _ _) eqn:Hfind; cbn [fst snd]; [|right; cbn; repeat split; lia].
  destruct (match prop "_id" body with Some v => _ | None => false end);
    cbn [fst snd]; [right; cbn; repeat split; lia|].
  destruct (duplicate _ _ _); cbn [fst snd]; [right; cbn; repeat split; lia|].
  left. eexists. split; [reflexivity|done].
Qed.

Lemma get_organization_pure id w : (get_organization id w).2 = w.
Proof. unfold get_organization. by destruct (findById _ _). Qed.
Lemma get_business_pure id w : (get_business id w).2 = w.
Proof. unfold get_business. by destruct (findById _ _). Qed.
Lemma get_franchise_pure id w : (get_franchise id w).2 = w.
Proof. unfold get_franchise. by destruct (findById _ _). Qed.
Lemma get_hierarchy_pure id w : (get_hierarchy id w).2 = w.
Proof. unfold get_hierarchy. by destruct (findById _ _). Qed.



(** The [updatedAt] of an updated document is the reading of the clock
    the update started with. *)
Lemma update_updatedAt (m : model) (Noun noun id : string) (body : value) (w : World)
    (d d' : doc) :
  own m →
  findById id (collection m (db w)) = Some d →
  (update m Noun noun id body w).1 = success 200 (VObj d') →
  d' !! "updatedAt" = Some (VNum (clock w (reads w))).
Proof.
  intros Hown Hfind Hok.
  destruct (update_success _ _ _ _ _ _ _ _ Hown Hfind Hok) as (set & Hset & -> & _).
  rewrite update_set_fold in Hset by done.
  apply set_fold_spec in Hset as [Hu _].
  by apply lookup_union_Some_l.
Qed.

Lemma app_cases (r : Request) (w : World) :
  (app r w).2 = w
  ∨ (∃ m noun, own m ∧ app r w = create m noun (body r) w)
  ∨ (∃ m Noun noun id, own m ∧ app r w = update m Noun noun id (body r) w).
Proof.
  destruct r as [v p q b]. unfold app. cbn [verb path query body].
  destruct v; destruct p as [|s1 [|s2 [|s3 [|s4 [|s5 p]]]]]; cbn [fmap list_fmap];
    try (left; reflexivity).
  all: repeat case_match; subst;
    first [ left; reflexivity
          | left; apply get_organization_pure
          | left; apply get_business_pure
          | left; apply get_franchise_pure
          | left; apply get_hierarchy_pure
          | right; left; eexists _, _; split; [|reflexivity]; unfold own; tauto
          | right; right; eexists _, _, _, _; split; [|reflexivity]; unfold own; tauto ].
Qed.







(** ** The claims on sample data *)


(** The hierarchy of the sample group: two brands, three businesses,
    and the three active franchises of two of them. *)
Example hierarchy_of_group :
  let answer := json (get_hierarchy (oid 1) (with_db group boot)).1 in
  ids (get ["data"; "brands"] answer) = [Some (VStr (oid 11)); Some (VStr (oid 12))]
  ∧ ids (get ["data"; "businesses"] answer)
    = [Some (VStr (oid 21)); Some (VStr (oid 22)); Some (VStr (oid 23))]
  ∧ ids (get ["data"; "franchises"] answer)
    = [Some (VStr (oid 31)); Some (VStr (oid 32)); Some (VStr (oid 33))].
Proof. repeat split; vm_compute; reflexivity. Qed.











(** * Further properties of the service *)

(** ** Identifiers *)

Lemma set_fold_keys (body : doc) (now : Z) (children : list (string * schema)) (set : doc)
    (k : string) :
  set_fold body now children = Some set →
  k ≠ "updatedAt" → is_Some (set !! k) →
  k ≠ "createdAt" ∧ k ∈ children.*1.
Proof.
  revert set. induction children as [|[k0 s0] rest IH]; intros set.
  - intros [= <-] Hk. rewrite lookup_singleton_ne by done. by intros [? ?].
  - unfold set_fold in *. cbn [foldr].
    destruct (bool_decide (k0 = "createdAt") || bool_decide (k0 = "updatedAt")) eqn:Hskip.
    { intros H1 H2 H3. destruct (IH set H1 H2 H3) as [? ?]. split; [done|].
      cbn. by apply elem_of_cons; right. }
    apply orb_false_iff in Hskip as [Hc%bool_decide_eq_false _].
    destruct (body !! k0) as [x|] eqn:Hx.
    2:{ intros H1 H2 H3. destruct (IH set H1 H2 H3) as [? ?]. split; [done|].
        cbn. by apply elem_of_cons; right. }
    destruct (cast_update s0 x) as [x'|]; [|done].
    destruct (foldr _ _ rest) as [a|]; [|done].
    intros [= <-] Hk. destruct (decide (k = k0)) as [->|Hne].
    + intros _. split; [done|]. cbn. by apply elem_of_cons; left.
    + rewrite lookup_insert_ne by done. intros H3.
      destruct (IH a eq_refl Hk H3) as [? ?]. split; [done|].
      cbn. by apply elem_of_cons; right.
Qed.

Lemma id_is_no_key (m : model) : "_id" ∉ (paths_of m).*1.
Proof. destruct m; apply (bool_decide_unpack _); vm_compute; exact I. Qed.

Lemma update_id (m : model) (Noun noun id : string) (body : value) (w : World)
    (d d' : doc) :
  own m →
  findById id (collection m (db w)) = Some d →
  (update m Noun noun id body w).1 = success 200 (VObj d') →
  d' !! "_id" = Some (VStr id).
Proof.
  intros Hown Hfind Hok.
  destruct (update_success _ _ _ _ _ _ _ _ Hown Hfind Hok) as (set & Hset & -> & _).
  rewrite update_set_fold in Hset by done.
  apply findById_Some in Hfind as [_ Hid]. rewrite <- Hid.
  apply lookup_union_r. destruct (set !! "_id") eqn:Hs; [|done].
  destruct (set_fold_keys _ _ _ _ "_id" Hset) as [_ Hin]; [done|by eexists|].
  by apply id_is_no_key in Hin.
Qed.

Lemma replace_ids (id : string) (d' : doc) (c : list doc) :
  d' !! "_id" = Some (VStr id) → ids_of (replace id d' c) = ids_of c.
Proof.
  intros Hd'. induction c as [|d c IH]; [done|]. cbn [replace].
  destruct (matches _ d) eqn:Hm.
  - apply matches_id in Hm. unfold ids_of. cbn. by rewrite Hd', Hm.
  - unfold ids_of in *. cbn. by rewrite IH.
Qed.

Lemma duplicate_id (m : model) (d : doc) (others : list doc) (id : string) :
  duplicate m d others = false → d !! "_id" = Some (VStr id) →
  Some (VStr id) ∉ ids_of others.
Proof.
  unfold duplicate. cbn [existsb]. intros [Hid _]%orb_false_iff Hd Hin.
  apply list_elem_of_fmap in Hin as (e & He & Hin).
  apply not_true_iff_false in Hid. apply Hid.
  apply existsb_exists. exists e. split; [by apply list_elem_of_In|].
  rewrite Hd. cbn. by apply equals_str.
Qed.

Lemma created_id (m : model) (noun : string) (body : value) (w : World) (d' : doc) :
  own m →
  (create m noun body w).1 = success 201 (VObj d') →
  ∃ id, d' !! "_id" = Some (VStr id)
        ∧ (Some (VStr id) ∉ ids_of (collection m (db w)))
        ∧ (prop "_id" body = None → id = objectIds w (minted w))
        ∧ (∀ v, prop "_id" body = Some v → v = VStr id).
Proof.
  intros Hown. pose proof (create_eq m noun body w Hown) as Heq. cbn zeta in Heq.
  rewrite Heq. clear Heq.
  destruct (construction_errors _ _ _ _ ++ _) eqn:Herrors;
    [|intros H; by apply failure_success in H].
  destruct (duplicate _ _ _) eqn:Hdup; [intros H; by apply failure_success in H|].
  cbn [fst]. intros H%success_inj. injection H as <-.
  apply app_eq_nil in Herrors as [Herrors _]. unfold construction_errors in Herrors.
  apply app_eq_nil in Herrors as [Herrors _].
  assert (∀ ts now d, stamp ts now d !! "_id" = d !! "_id") as Hstamp.
  { intros. unfold stamp, timestamps_on_save. by rewrite !lookup_insert_ne. }
  unfold identity in Herrors.
  destruct (prop "_id" body) as [v|] eqn:Hbody.
  - destruct v; try discriminate Herrors. eexists. split; [|split; [|split]].
    + rewrite Hstamp. unfold constructed, identity. rewrite Hbody. cbn [fst].
      apply lookup_insert_eq.
    + eapply duplicate_id; [exact Hdup|]. rewrite Hstamp. unfold constructed, identity.
      rewrite Hbody. cbn [fst]. apply lookup_insert_eq.
    + done.
    + by intros ? [= <-].
  - eexists. split; [|split; [|split]].
    + rewrite Hstamp. unfold constructed, identity. rewrite Hbody. cbn [fst].
      apply lookup_insert_eq.
    + eapply duplicate_id; [exact Hdup|]. rewrite Hstamp. unfold constructed, identity.
      rewrite Hbody. cbn [fst]. apply lookup_insert_eq.
    + done.
    + done.
Qed.

(** What a request does to the identifiers of a collection: nothing, or
    one new identifier at the end. *)
Lemma app_ids (r : Request) (w : World) (m : model) :
  ids_of (collection m (db (app r w).2)) = ids_of (collection m (db w))
  ∨ ∃ id, ids_of (collection m (db (app r w).2))
          = ids_of (collection m (db w)) ++ [Some (VStr id)]
          ∧ (Some (VStr id) ∉ ids_of (collection m (db w))).
Proof.
  destruct (app_cases r w)
    as [Heq|[(m' & noun & Hown & Heq)|(m' & Noun & noun & id & Hown & Heq)]];
    rewrite Heq; [by left|..].
  - destruct (create_failure m' noun (body r) w Hown) as [[d' Hok]|(-> & _)]; [|by left].
    destruct (created_id _ _ _ _ _ Hown Hok) as (id & Hid & Hfresh & _).
    destruct (create_success _ _ _ _ _ Hown Hok) as [_ ->].
    cbn [with_db db]. rewrite collection_set. destruct (decide (m = m')) as [->|]; [|by left].
    right. exists id. split; [|done]. unfold ids_of. rewrite fmap_app. cbn. by rewrite Hid.
  - destruct (update_other m' Noun noun id (body r) w) as [(d' & Hok & [d Hfind])|(-> & _)];
      [|by left].
    pose proof (update_id _ _ _ _ _ _ _ _ Hown Hfind Hok) as Hid.
    destruct (update_success _ _ _ _ _ _ _ _ Hown Hfind Hok) as (set & _ & _ & ->).
    cbn [with_db db]. rewrite collection_set. destruct (decide (m = m')) as [->|]; [|by left].
    left. by apply replace_ids.
Qed.



(** X2. No request removes a document or changes an identifier: the
    identifiers of a collection after a request are the ones before it,
    in the same order, followed by at most one new identifier, which no
    document of the collection had. *)
Theorem identifiers_only_grow (r : Request) (w : World) (m : model) :
  ∃ new, ids_of (collection m (db (app r w).2)) = ids_of (collection m (db w)) ++ new
         ∧ (new = [] ∨ ∃ id, new = [Some (VStr id)]
                             ∧ Some (VStr id) ∉ ids_of (collection m (db w))).
Proof.
  destruct (app_ids r w m) as [Heq|(id & Heq & Hfresh)].
  - exists []. rewrite app_nil_r. split; [done|by left].
  - exists [Some (VStr id)]. split; [done|]. right. by exists id.
Qed.

(** X3. In every world the service can reach, every stored document has
    a string [_id], and no two documents of a collection share one. *)
Theorem identifiers_are_unique (w : World) (m : model) :
  reachable w →
  NoDup (ids_of (collection m (db w)))
  ∧ ∀ d, d ∈ collection m (db w) → ∃ id, d !! "_id" = Some (VStr id).
Proof.
  intros Hw.
  cut (NoDup (ids_of (collection m (db w)))
       ∧ Forall (fun i => ∃ id, i = Some (VStr id)) (ids_of (collection m (db w)))).
  { intros [Hnd Hall]. split; [done|]. intros d Hd.
    rewrite Forall_forall in Hall. apply Hall. apply list_elem_of_fmap. by exists d. }
  induction Hw as [c ids|r w _ [IHnd IHall]].
  - destruct m; cbn; split; constructor.
  - destruct (app_ids r w m) as [->|(id & -> & Hfresh)]; [done|]. split.
    + apply NoDup_app. split; [done|]. split; [|apply NoDup_singleton].
      intros x Hx ->%list_elem_of_singleton. done.
    + apply Forall_app. split; [done|]. constructor; [by exists id|constructor].
Qed.

Lemma identifiers_are_unique_witness :
  NoDup (ids_of (collection Organization (db acme_created))).
Proof.
  exact (proj1 (identifiers_are_unique acme_created Organization
                  (reachable_app _ boot (reachable_initial _ _)))).
Defined.

(** ** What a request leaves as it was *)

(** X4. A request that is not answered 200 or 201 stores nothing. *)
Theorem failed_requests_store_nothing (r : Request) (w : World) :
  status (app r w).1 ≠ 200 → status (app r w).1 ≠ 201 → db (app r w).2 = db w.
Proof.
  intros H200 H201.
  destruct (app_cases r w)
    as [Heq|[(m & noun & Hown & Heq)|(m & Noun & noun & id & Hown & Heq)]].
  - by rewrite Heq.
  - rewrite Heq in *.
    destruct (create_failure m noun (body r) w Hown) as [[d' Hok]|(? & _)]; [|done].
    rewrite Hok in H201. by rewrite status_success in H201.
  - rewrite Heq in *.
    destruct (update_other m Noun noun id (body r) w) as [(d' & Hok & _)|(? & _)]; [|done].
    rewrite Hok in H200. by rewrite status_success in H200.
Qed.

Lemma failed_requests_store_nothing_witness :
  db (app (request POST ["api"; "organizations"] no_query (object [("name", VStr "Acme")]))
          boot).2 = db boot.
Proof.
  apply failed_requests_store_nothing; vm_compute; discriminate.
Defined.

(** X5. An update writes the paths of the schema only, never [_id] or
    [createdAt], and always [updatedAt], whatever the body holds: the
    updated document has the [_id] and the [createdAt] it had, its
    [updatedAt] is the reading of the clock, and every field that is no
    top-level path of the schema is as it was. *)
Theorem update_writes_schema_paths_only (m : model) (Noun noun id : string) (body : value)
    (w : World) (d d' : doc) :
  own m →
  findById id (collection m (db w)) = Some d →
  (update m Noun noun id body w).1 = success 200 (VObj d') →
  d' !! "_id" = Some (VStr id)
  ∧ d' !! "createdAt" = d !! "createdAt"
  ∧ d' !! "updatedAt" = Some (VNum (clock w (reads w)))
  ∧ ∀ k, k ∉ (paths_of m).*1 → d' !! k = d !! k.
Proof.
  intros Hown Hfind Hok.
  pose proof (update_id _ _ _ _ _ _ _ _ Hown Hfind Hok) as Hid.
  pose proof (update_updatedAt _ _ _ _ _ _ _ _ Hown Hfind Hok) as Hupdated.
  destruct (update_success _ _ _ _ _ _ _ _ Hown Hfind Hok) as (set & Hset & -> & _).
  rewrite update_set_fold in Hset by done.
  assert (∀ k, k ≠ "updatedAt" → (k = "createdAt" ∨ k ∉ (paths_of m).*1) →
               (set ∪ d) !! k = d !! k) as Hkeep.
  { intros k Hu Hk. apply lookup_union_r. destruct (set !! k) eqn:Hs; [|done].
    destruct (set_fold_keys _ _ _ _ k Hset) as [Hc Hin]; [done|by eexists|].
    by destruct Hk. }
  split; [done|]. split; [apply Hkeep; [done|by left]|]. split; [done|].
  intros k Hk. apply Hkeep; [|by right]. intros ->. apply Hk.
  destruct Hown as [->|[->|[->| ->]]]; apply (bool_decide_unpack _); vm_compute; exact I.
Qed.

(** ** Round trips *)





Lemma update_writes_schema_paths_only_witness :
  let body := object [("_id", VStr (oid 1)); ("createdAt", VNum 5); ("nickname", VStr "G")] in
  let d' := data_of (update Organization "Organization" "organization" (oid 1) body
                       (with_db group boot)).1 in
  d' !! "_id" = Some (VStr (oid 1)) ∧ d' !! "createdAt" = None
  ∧ d' !! "updatedAt" = Some (VNum 1700000000000) ∧ d' !! "nickname" = None.
Proof.
  intros body d'.
  assert (findById (oid 1) (collection Organization (db (with_db group boot)))
          = Some (entity [("_id", VStr (oid 1)); ("name", VStr "Group")]))
    as Hfind by (vm_compute; reflexivity).
  assert ((update Organization "Organization" "organization" (oid 1) body
             (with_db group boot)).1 = success 200 (VObj d'))
    as Hok by (vm_compute; reflexivity).
  destruct (update_writes_schema_paths_only Organization "Organization" "organization"
              (oid 1) body (with_db group boot) _ d' (or_introl eq_refl) Hfind Hok)
    as (H1 & H2 & H3 & H4).
  split; [exact H1|]. split; [exact H2|]. split; [exact H3|]. apply H4.
  apply (bool_decide_unpack _). vm_compute. exact I.
Defined.







(** ** What a create stores *)













Lemma paths_of_updatedAt (m : model) :
  own m → child "updatedAt" (paths_of m) = Some (Path TDate (dft_now plain)).
Proof. by intros [->|[->|[->| ->]]]. Qed.













(** ** What an update stores *)

Lemma set_fold_lookup (body : doc) (now : Z) (children : list (string * schema))
    (set : doc) (k : string) (s' : schema) (x : value) :
  NoDup (children.*1) →
  set_fold body now children = Some set →
  k ≠ "createdAt" → k ≠ "updatedAt" →
  child k children = Some s' → body !! k = Some x →
  ∃ x', cast_update s' x = Some x' ∧ set !! k = Some x'.
Proof.
  intros Hnd Hset Hc Hu. revert set Hnd Hset.
  induction children as [|[k0 s0] rest IH]; intros set Hnd Hset Hchild Hx; [done|].
  cbn in Hnd. apply NoDup_cons in Hnd as [Hk0 Hnd].
  unfold set_fold in *. cbn [foldr] in Hset. cbn [child] in Hchild.
  destruct (decide (k0 = k)) as [->|Hne].
  - injection Hchild as ->.
    rewrite !bool_decide_eq_false_2 in Hset by done. cbn [orb] in Hset.
    rewrite Hx in Hset. destruct (cast_update s' x) as [x'|]; [|done].
    destruct (foldr _ _ rest) as [a|]; [|done]. injection Hset as <-.
    exists x'. split; [done|]. apply lookup_insert_eq.
  - destruct (bool_decide (k0 = "createdAt") || bool_decide (k0 = "updatedAt"));
      [by apply IH|].
    destruct (body !! k0) as [x0|]; [|by apply IH].
    destruct (cast_update s0 x0) as [x0'|]; [|done].
    destruct (foldr _ _ rest) as [a|]; [|done]. injection Hset as <-.
    rewrite lookup_insert_ne by done. by apply IH.
Qed.

(** The [$set] document exists when every value the body gives a path
    casts. *)
Lemma set_fold_Some (body : doc) (now : Z) (children : list (string * schema)) :
  (∀ k s' x, (k, s') ∈ children → body !! k = Some x → is_Some (cast_update s' x)) →
  is_Some (set_fold body now children).
Proof.
  induction children as [|[k0 s0] rest IH]; intros Hcast; [by eexists|].
  unfold set_fold in *. cbn [foldr].
  destruct IH as [a Ha].
  { intros k s' x Hin. apply Hcast. by apply elem_of_cons; right. }
  rewrite Ha.
  destruct (bool_decide (k0 = "createdAt") || bool_decide (k0 = "updatedAt")); [by eexists|].
  destruct (body !! k0) as [x0|] eqn:Hx0; [|by eexists].
  destruct (Hcast k0 s0 x0) as [x0' ->]; [by apply elem_of_cons; left|done|].
  by eexists.
Qed.

Lemma without_id (id : string) (c : list doc) (e : doc) :
  e ∈ without id c → equals (VStr id) (e !! "_id") = false.
Proof.
  unfold without. intros [Hm _]%list_elem_of_filter. unfold matches in Hm.
  cbn in Hm. by rewrite andb_true_r in Hm.
Qed.

Lemma distinct_paths (m : model) : NoDup (paths_of m).*1.
Proof. destruct m; apply (bool_decide_unpack _); vm_compute; exact I. Qed.

(** X13. Validators do not run on an update. For a model without a
    unique path, an update of a stored document that names one string
    path answers 200 and stores the string, passed through the setters
    of the path, whatever the [required], [enum] and [maxlength] of
    the path are. *)
Theorem update_skips_validators (m : model) (Noun noun id : string) (w : World) (d : doc)
    (k : string) (o : options) (x : string) :
  own m → unique_paths m = [] →
  child k (paths_of m) = Some (Path TString o) →
  findById id (collection m (db w)) = Some d →
  ∃ d', (update m Noun noun id (object [(k, VStr x)]) w).1 = success 200 (VObj d')
        ∧ d' !! k = Some (VStr (normalized o x)).
Proof.
  intros Hown Huniq Hchild Hfind.
  assert (k ≠ "_id") as Hid.
  { intros ->. apply child_elem_of in Hchild. apply (id_is_no_key m).
    apply list_elem_of_fmap. by exists ("_id", Path TString o). }
  assert (k ≠ "createdAt" ∧ k ≠ "updatedAt") as [Hc Hu].
  { split; intros ->.
    - by rewrite paths_of_createdAt in Hchild.
    - by rewrite paths_of_updatedAt in Hchild. }
  assert (fields_of (object [(k, VStr x)]) = {[k := VStr x]}) as Hbody by done.
  destruct (set_fold_Some {[k := VStr x]} (clock w (reads w)) (paths_of m)) as [set Hset].
  { intros k' s' x' Hin [<- <-]%lookup_singleton_Some.
    assert (child k (paths_of m) = Some s') as Hs'.
    { clear -Hin. pose proof (distinct_paths m) as Hnd.
      induction (paths_of m) as [|[k0 s0] rest IH]; [by apply elem_of_nil in Hin|].
      cbn in Hnd. apply NoDup_cons in Hnd as [Hk0 Hnd]. cbn [child].
      apply elem_of_cons in Hin as [[= <- <-]|Hin]; [by rewrite decide_True|].
      rewrite decide_False; [by apply IH|]. intros ->. apply Hk0.
      apply list_elem_of_fmap. by exists (k, s'). }
    rewrite Hchild in Hs'. injection Hs' as <-. by eexists. }
  destruct (set_fold_lookup _ _ _ _ k _ (VStr x) (distinct_paths m) Hset Hc Hu Hchild)
    as (x' & Hcast & Hk); [apply lookup_singleton_eq|].
  cbn in Hcast. injection Hcast as <-.
  exists (set ∪ d). split; [|by apply lookup_union_Some_l].
  unfold update, findByIdAndUpdate, Date_now. cbn [db clock reads].
  rewrite update_set_fold, Hbody, Hset, Hfind by done.
  assert (prop "_id" (object [(k, VStr x)]) = None) as ->.
  { cbn. by rewrite lookup_insert_ne. }
  assert (duplicate m (set ∪ d) (without id (collection m (db w))) = false) as ->; [|done].
  unfold duplicate. rewrite Huniq. cbn [existsb]. rewrite orb_false_r.
  apply not_true_iff_false. intros (e & He%list_elem_of_In & Heq)%existsb_exists.
  apply without_id in He. apply findById_Some in Hfind as [_ Hd].
  assert ((set ∪ d) !! "_id" = Some (VStr id)) as Hid'.
  { rewrite <- Hd. apply lookup_union_r. destruct (set !! "_id") eqn:Hs; [|done].
    destruct (set_fold_keys _ _ _ _ "_id" Hset) as [_ Hin]; [done|by eexists|].
    by apply id_is_no_key in Hin. }
  rewrite Hid' in Heq. cbn in Heq. congruence.
Qed.

Lemma update_skips_validators_witness :
  ∃ d', (update Business "Business" "business" (oid 21)
           (object [("industry", VStr "casino")]) (with_db group boot)).1
        = success 200 (VObj d')
        ∧ d' !! "industry" = Some (VStr "casino").
Proof.
  destruct (update_skips_validators Business "Business" "business" (oid 21)
              (with_db group boot) (business_of 21 (VStr (oid 11)) true)
              "industry" (req (one_of industries plain)) "casino"
              (or_intror (or_intror (or_introl eq_refl))) eq_refl eq_refl)
    as (d' & H1 & H2); [vm_compute; reflexivity|].
  exists d'. split; [exact H1|]. rewrite H2. reflexivity.
Defined.

(** ** Instance methods *)







(** X16. [checkLimit] needs the count populated: on a document whose
    count virtual is not populated, a limit type the method knows is
    answered false unless the limit is [null], whatever the store
    holds. *)
Theorem checkLimit_without_count (this : doc) :
  (this !! "brandCount" = None → get ["limits"; "brands"] (VObj this) ≠ Some VNull →
   Organization.checkLimit this "brands" = false)
  ∧ (this !! "businessCount" = None →
     get ["limits"; "businesses"] (VObj this) ≠ Some VNull →
     Organization.checkLimit this "businesses" = false
     ∧ Brand.checkLimit this "businesses" = false)
  ∧ (this !! "franchiseCount" = None →
     get ["subscription"; "limits"; "franchises"] (VObj this) ≠ Some VNull →
     Business.checkLimit this "franchises" = false)
  ∧ (this !! "staffCount" = None →
     get ["subscription"; "limits"; "staff"] (VObj this) ≠ Some VNull →
     Business.checkLimit this "staff" = false).
Proof.
  unfold Organization.checkLimit, Brand.checkLimit, Business.checkLimit.
  split; [|split; [|split]]; intros Hcount Hlimit;
    rewrite ?get_nested, ?get_nested2 in Hlimit; rewrite Hcount;
    cbn [bool_decide decide_rel];
    match goal with
    | H : ?l ≠ Some VNull |- _ => destruct l as [[]|]
    end; done.
Qed.

Lemma checkLimit_without_count_witness :
  Business.checkLimit shop "franchises" = false.
Proof.
  destruct (checkLimit_without_count shop) as (_ & _ & H & _).
  apply H; [reflexivity|vm_compute; discriminate].
Defined.

(** ** The hierarchy and the methods *)

Lemma holds_In (xs : list value) (v : option value) :
  holds (In_ xs) v = true ↔ ∃ x, x ∈ xs ∧ equals x v = true.
Proof.
  cbn [holds]. rewrite existsb_exists. split; intros (x & Hx & He); exists x.
  - split; [by apply list_elem_of_In|done].
  - split; [by apply list_elem_of_In|done].
Qed.

(** The answer of the hierarchy in terms of the instance methods. *)
Lemma hierarchy_answer (orgId : string) (w : World) (organization : doc) :
  findById orgId (collection Organization (db w)) = Some organization →
  ∃ franchises,
    (get_hierarchy orgId w).1
    = success 200
        (object
           [("organization", VObj organization);
            ("brands", VArr (VObj <$> Organization.getActiveBrands organization (db w)));
            ("businesses",
             VArr (VObj <$> (populate Business "brandId" ["name"] (db w)
                               <$> Organization.getActiveBusinesses organization (db w))));
            ("franchises", VArr (VObj <$> franchises))])
    ∧ ∀ f, f ∈ franchises ↔
           ∃ b, b ∈ Organization.getActiveBusinesses organization (db w)
                ∧ f ∈ Business.getActiveFranchises b (db w).
Proof.
  intros Hfind. unfold get_hierarchy. rewrite Hfind.
  apply findById_Some in Hfind as [_ Hid].
  unfold Organization.getActiveBrands, Organization.getActiveBusinesses,
    Business.getActiveFranchises. rewrite Hid. cbn [default].
  eexists. split; [reflexivity|].
  intros f. rewrite elem_of_find. split.
  - intros (Hf & Hm). apply matches_cons in Hm as [Hin Hactive].
    apply holds_In in Hin as (x & Hx & He).
    apply list_elem_of_fmap in Hx as (b' & -> & Hb').
    apply list_elem_of_fmap in Hb' as (b & -> & Hb).
    exists b. split; [done|]. apply elem_of_find. split; [done|].
    apply matches_cons. split; [|done]. cbn [holds].
    by rewrite populate_other in He.
  - intros (b & Hb & [Hf Hm]%elem_of_find). split; [done|].
    apply matches_cons in Hm as [Hin Hactive]. apply matches_cons. split; [|done].
    apply holds_In. exists (default VNull (b !! "_id")). split; [|done].
    apply list_elem_of_fmap. exists (populate Business "brandId" ["name"] (db w) b).
    split; [by rewrite populate_other|]. apply list_elem_of_fmap. by exists b.
Qed.

(** X17. The hierarchy is what the instance methods return: its brands
    are the organization's active brands, its businesses the
    organization's active businesses (each with its brand populated),
    and its franchises the active franchises of those businesses. *)
Theorem hierarchy_lists_active_children (orgId : string) (w : World) (organization : doc) :
  findById orgId (collection Organization (db w)) = Some organization →
  ∃ franchises,
    (get_hierarchy orgId w).1
    = success 200
        (object
           [("organization", VObj organization);
            ("brands", VArr (VObj <$> Organization.getActiveBrands organization (db w)));
            ("businesses",
             VArr (VObj <$> (populate Business "brandId" ["name"] (db w)
                               <$> Organization.getActiveBusinesses organization (db w))));
            ("franchises", VArr (VObj <$> franchises))])
    ∧ ∀ f, f ∈ franchises ↔
           ∃ b, b ∈ Organization.getActiveBusinesses organization (db w)
                ∧ f ∈ Business.getActiveFranchises b (db w).
Proof. apply hierarchy_answer. Qed.

Lemma hierarchy_lists_active_children_witness :
  let organization := entity [("_id", VStr (oid 1)); ("name", VStr "Group")] in
  ∃ franchises,
    (get_hierarchy (oid 1) (with_db group boot)).1
    = success 200
        (object
           [("organization", VObj organization);
            ("brands", VArr (VObj <$> Organization.getActiveBrands organization group));
            ("businesses",
             VArr (VObj <$> (populate Business "brandId" ["name"] group
                               <$> Organization.getActiveBusinesses organization group)));
            ("franchises", VArr (VObj <$> franchises))])
    ∧ ∀ f, f ∈ franchises ↔
           ∃ b, b ∈ Organization.getActiveBusinesses organization group
                ∧ f ∈ Business.getActiveFranchises b group.
Proof.
  apply (hierarchy_lists_active_children (oid 1) (with_db group boot)).
  vm_compute. reflexivity.
Defined.

(** ** Listings *)









(** ** Deactivation *)








(** ** Uniqueness and limits on create *)

Lemma stamp_other (ts now : Z) (d : doc) (k : string) :
  k ≠ "createdAt" → k ≠ "updatedAt" → stamp ts now d !! k = d !! k.
Proof.
  intros Hc Hu. unfold stamp, timestamps_on_save. by rewrite !lookup_insert_ne.
Qed.




Lemma duplicate_id_only (m : model) (d : doc) (others : list doc) (id : string) :
  unique_paths m = [] → d !! "_id" = Some (VStr id) →
  Some (VStr id) ∉ ids_of others →
  duplicate m d others = false.
Proof.
  intros Hu Hd Hfresh. unfold duplicate. rewrite Hu. cbn [existsb]. rewrite orb_false_r.
  apply not_true_iff_false. intros (e & He%list_elem_of_In & Heq)%existsb_exists.
  rewrite Hd in Heq. cbn [default] in Heq. apply equals_str in Heq.
  apply Hfresh. rewrite <- Heq. apply list_elem_of_fmap. by exists e.
Qed.

(** X23. No limit is checked on a create. For a model without a unique
    path (brands, businesses, franchises), the answer of a create is
    the same in any two stores whose collection does not hold the
    identifier of the new document: neither the number of documents
    stored nor the limits of a parent are read. *)
Theorem create_reads_no_limit (m : model) (noun : string) (body : value) (w : World)
    (st : Store) :
  own m → unique_paths m = [] →
  let id := (identity body (objectIds w (minted w))).1 in
  Some id ∉ ids_of (collection m (db w)) →
  Some id ∉ ids_of (collection m st) →
  (create m noun body (with_db st w)).1 = (create m noun body w).1.
Proof.
  intros Hown Hu id Hw Hst.
  pose proof (create_eq m noun body w Hown) as Heq. cbn zeta in Heq.
  pose proof (create_eq m noun body (with_db st w) Hown) as Heq'. cbn zeta in Heq'.
  cbn [with_db db clock reads objectIds minted] in Heq'.
  rewrite Heq, Heq'. clear Heq Heq'.
  destruct (construction_errors _ _ _ _ ++ _) eqn:Herrors; [|done].
  apply app_eq_nil in Herrors as [Herrors _]. unfold construction_errors in Herrors.
  apply app_eq_nil in Herrors as [Herrors _].
  assert (∃ i, id = VStr i) as [i Hi].
  { unfold id, identity in *. destruct (prop "_id" body) as [[]|]; try done; by eexists. }
  rewrite Hi in Hw, Hst.
  assert (∀ ts now, stamp ts now (constructed m body (clock w (reads w))
                                    (objectIds w (minted w))) !! "_id" = Some (VStr i))
    as Hid.
  { intros. rewrite stamp_other by done. unfold constructed. fold id. rewrite Hi.
    apply lookup_insert_eq. }
  by rewrite !(duplicate_id_only m _ _ i Hu (Hid _ _)).
Qed.

Lemma create_reads_no_limit_witness :
  (create Franchise "franchise" kiosk (with_db two_active_one_inactive boot)).1
  = (create Franchise "franchise" kiosk boot).1.
Proof.
  apply (create_reads_no_limit Franchise "franchise" kiosk boot two_active_one_inactive).
  - unfold own. tauto.
  - reflexivity.
  - intros H. by apply elem_of_nil in H.
  - intros H. apply list_elem_of_fmap in H as (e & He & Hin).
    repeat (apply elem_of_cons in Hin as [->|Hin]; [vm_compute in He; discriminate He|]).
    by apply elem_of_nil in Hin.
Defined.

(** ** Opening hours *)

(** X24. [isOpen] never answers: the first thing it does is to call
    [toLocaleLowerCase] on the date, which no date has, so it throws a
    TypeError for every franchise and every date. *)
Theorem isOpen_never_answers (this : doc) (date : Date) :
  Franchise.isOpen this date = Throw TypeError.
Proof. apply isOpen_throws. Qed.

(** ** Answers *)





Lemma find_all (c : list doc) : find [] c = c.
Proof.
  induction c as [|d c IH]; [done|]. unfold find in *.
  rewrite filter_cons_True by apply matches_nil. by rewrite IH.
Qed.

(** X26. Without an [isActive] parameter a listing of organizations
    does not filter: with the limit zero, which is no limit, and from
    the start, it answers every stored organization, active or not,
    each with its counts populated. *)
Theorem organizations_are_listed_whole (w : World) (q : Query) (b : value) :
  q_isActive q = None → q_limit q = Some 0%nat → default 0%nat (q_offset q) = 0%nat →
  ∃ docs,
    (app (request GET ["api"; "organizations"] q b) w).1 = listing docs
    ∧ docs ≡ₚ (fun d => populate Organization "businessCount" [] (db w)
                          (populate Organization "brandCount" [] (db w) d))
               <$> collection Organization (db w).
Proof.
  intros Hactive Hlimit Hoffset. eexists. split; [reflexivity|]. cbn [query request].
  unfold page, isActive_filter, limit, skip, sort. rewrite Hactive, Hlimit, Hoffset.
  cbn [default from_option id drop]. rewrite find_all, <- list_fmap_compose.
  apply fmap_Permutation, merge_sort_Permutation.
Qed.

Lemma organizations_are_listed_whole_witness :
  ∃ docs,
    (app (request GET ["api"; "organizations"] (with_limit 0 no_query) VNull)
         (with_db group boot)).1 = listing docs
    ∧ length docs = 1%nat.
Proof.
  destruct (organizations_are_listed_whole (with_db group boot) (with_limit 0 no_query) VNull
              eq_refl eq_refl eq_refl) as (docs & H1 & H2).
  exists docs. split; [exact H1|]. rewrite H2. reflexivity.
Defined.

(** ** Statuses *)





(** ** Nested objects and collections *)




(** X29. A request writes at most one collection, and only one of the
    service's own: there is a model among organizations, brands,
    businesses and franchises such that every other collection,
    those of users, staff and forms included, is after the request as
    it was before. *)
Theorem requests_write_one_collection (r : Request) (w : World) :
  ∃ m, own m ∧ ∀ m', m' ≠ m → collection m' (db (app r w).2) = collection m' (db w).
Proof.
  destruct (app_cases r w)
    as [Heq|[(m & noun & Hown & Heq)|(m & Noun & noun & id & Hown & Heq)]]; rewrite Heq.
  - exists Organization. split; [unfold own; tauto|done].
  - exists m. split; [done|]. intros m' Hm'.
    destruct (create_failure m noun (body r) w Hown) as [[d' Hok]|(-> & _)]; [|done].
    destruct (create_success _ _ _ _ _ Hown Hok) as [_ ->].
    cbn [with_db db]. by rewrite collection_set, decide_False.
  - exists m. split; [done|]. intros m' Hm'.
    destruct (update_other m Noun noun id (body r) w) as [(d' & Hok & [d Hfind])|(-> & _)];
      [|done].
    destruct (update_success _ _ _ _ _ _ _ _ Hown Hfind Hok) as (set & _ & _ & ->).
    cbn [with_db db]. by rewrite collection_set, decide_False.
Qed.
